(** * The ontime connection manager (src/v2/connection.ts)

    A shallow embedding of the module that keeps one WebSocket to the
    ontime server, reconnects after a close, turns inbound state frames
    into host variables and feedback checks, and fetches the event
    directory over HTTP.

    The module is event driven and single threaded: every handler runs to
    completion.  A handler is embedded as a function on the [World] (the
    three module-level variables, the sockets and timers the runtime
    holds for the module, the requests in flight, and the host instance
    [self]), in a small monad whose computations either complete or throw
    and keep the effects performed before the throw. *)

From Stdlib Require Import ZArith List String Ascii Bool Lia DecimalString.
Import ListNotations.
Set Warnings "-register-all".
Open Scope string_scope.
Open Scope Z_scope.

(** ** JavaScript values *)

(** The values that reach the module: what [JSON.parse] builds, plus
    [undefined] for an absent property.  A number is an integer [JNum n]
    (millisecond counts, ports, lengths; [-0] is [JNum 0]) or, when it is
    not one, [JFraction negative text]: its sign and the text [ToString]
    gives for it, which determine it.  The module compares a number with
    zero, tests it for truth, prints it and passes it on, and does
    nothing else with one.  Strings are sequences of code units.  An
    object is its list of own properties, keys unique, as [JSON.parse]
    leaves them. *)
Inductive jsval : Type :=
| JUndefined
| JNull
| JBool (b : bool)
| JNum (n : Z)
| JFraction (negative : bool) (text : string)
| JStr (s : string)
| JArr (elems : list jsval)
| JObj (props : list (string * jsval)).

Inductive JsError : Type :=
| TypeError (what : string)
| SyntaxError
| RequestFailed (reason : string).

(** The outcome of evaluating something that may throw. *)
Inductive completion (A : Type) : Type :=
| Normal (a : A)
| Throw (e : JsError).
Arguments Normal {A} a.
Arguments Throw {A} e.

Module Js.

Definition Z_to_string (n : Z) : string := NilZero.string_of_int (Z.to_int n).

Fixpoint join (sep : string) (l : list string) : string :=
  match l with
  | [] => ""
  | [s] => s
  | s :: rest => s ++ sep ++ join sep rest
  end.

(** [ToString], as a template literal or [+ ':'] applies it. *)
Fixpoint ToString (v : jsval) : string :=
  match v with
  | JUndefined => "undefined"
  | JNull => "null"
  | JBool true => "true"
  | JBool false => "false"
  | JNum n => Z_to_string n
  | JFraction _ text => text
  | JStr s => s
  | JArr l =>
      join ","
        (map (fun x => match x with
                       | JUndefined | JNull => ""
                       | _ => ToString x
                       end) l)
  | JObj _ => "[object Object]"
  end.

(** [!v] is [negb (truthy v)]. *)
Definition truthy (v : jsval) : bool :=
  match v with
  | JUndefined | JNull => false
  | JBool b => b
  | JNum n => negb (n =? 0)
  | JFraction _ _ => true
  | JStr s => negb (s =? "")%string
  | JArr _ | JObj _ => true
  end.

(** [v === s] for a string literal [s]. *)
Definition strict_eq_str (v : jsval) (s : string) : bool :=
  match v with
  | JStr t => (t =? s)%string
  | _ => false
  end.

Fixpoint lookup (k : string) (props : list (string * jsval)) : jsval :=
  match props with
  | [] => JUndefined
  | (k', v) :: rest => if (k' =? k)%string then v else lookup k rest
  end.

(** Assignment to a property: in place when the key is there, a new
    last property otherwise. *)
Fixpoint update (k : string) (v : jsval) (props : list (string * jsval))
  : list (string * jsval) :=
  match props with
  | [] => [(k, v)]
  | (k', v') :: rest =>
      if (k' =? k)%string then (k', v) :: rest else (k', v') :: update k v rest
  end.

(** [undefined] and [null], the two values no property can be read from. *)
Definition nullish (v : jsval) : bool :=
  match v with
  | JUndefined | JNull => true
  | _ => false
  end.

Definition read_error (v : jsval) : JsError :=
  TypeError ("Cannot read properties of " ++ ToString v).

(** [v.k] for the property names the module reads ([type], [payload],
    [timer], [current], ..., [length], [id], [title]): a [TypeError] on
    [undefined] and [null], the own property of an object, [length] of
    an array or a string, [undefined] in every other case. *)
Definition get_prop (v : jsval) (k : string) : completion jsval :=
  match v with
  | JUndefined | JNull => Throw (read_error v)
  | JObj props => Normal (lookup k props)
  | JArr l =>
      Normal (if (k =? "length")%string then JNum (Z.of_nat (List.length l))
              else JUndefined)
  | JStr s =>
      Normal (if (k =? "length")%string then JNum (Z.of_nat (String.length s))
              else JUndefined)
  | JBool _ | JNum _ | JFraction _ _ => Normal JUndefined
  end.

(** [v.k = x].  The module is strict-mode code (an ES module), where
    the assignment throws on a primitive; it is only ever reached with
    [v] an object (see [ontime_branch]). *)
Definition put_prop (v : jsval) (k : string) (x : jsval) : completion jsval :=
  match v with
  | JObj props => Normal (JObj (update k x props))
  | _ => Throw (TypeError "Cannot create property")
  end.

End Js.

(** ** What the module takes from outside

    [JSON.parse] and [JSON.stringify] are the runtime's; [toReadableTime]
    and [mstoTime] are imported from [../utilities].  The embedding is
    parametric in them. *)
Record ReadableTime : Type := mkReadableTime
  { hours : string; minutes : string; seconds : string }.

Class Runtime : Type :=
  { (** [None] stands for the [SyntaxError] thrown on text that is not JSON. *)
    JSON_parse : string -> option jsval;
    JSON_stringify : jsval -> string;
    (** Modelled from the spec: the two helpers of [../utilities] are pure
        functions to a zero-padded hours/minutes/seconds triple and to a
        formatted delay. *)
    toReadableTime : jsval -> ReadableTime;
    mstoTime : jsval -> string;
    (** Whether a string, read as a number by [<], is below zero. *)
    string_below_zero : string -> bool;
    (** Whether the constructor of [ws] takes the address: it throws a
        [SyntaxError] on one that is not a URL (a port above 65535, a
        host with a space in it, ...). *)
    address_accepted : string -> bool }.

(** [v < 0]: numeric on a number, after [ToNumber] on the rest
    ([undefined] is NaN, [null] and [false] are 0, [true] is 1, an object
    or array goes through its string). *)
Definition lt_zero `{Runtime} (v : jsval) : bool :=
  match v with
  | JNum n => n <? 0
  | JFraction negative _ => negative
  | JUndefined | JNull | JBool _ => false
  | JStr s => string_below_zero s
  | JArr _ | JObj _ => string_below_zero (Js.ToString v)
  end.

(** ** The host instance *)

(** [InstanceStatus] of [@companion-module/base], the members used. *)
Inductive InstanceStatus : Type :=
| Ok | Connecting | Disconnected | BadConfig.

(** The members of [variableId] and [feedbackId] ([../enums]) the module
    names. *)
Module variableId.
Inductive t : Type :=
| Time | TimeHM | TimeH | TimeM | TimeS | Clock | TimerStart | TimerFinish
| TimerDelay | PlayState | OnAir | TitleNow | SubtitleNow | SpeakerNow
| NoteNow | TitleNext | SubtitleNext | SpeakerNext | NoteNext
| SpeakerMessage | PublicMessage | LowerMessage.
End variableId.

Module feedbackId.
Inductive t : Type :=
| ColorRunning | ColorPaused | ColorStopped | ColorRoll | ColorNegative
| OnAir | SpeakerMessageVisible | PublicMessageVisible | LowerMessageVisible.
End feedbackId.

Inductive LogArg : Type :=
| Text (s : string)
| Caught (e : JsError).

(** A call into the host sink. *)
Inductive HostCall : Type :=
| updateStatus (status : InstanceStatus) (detail : option string)
| log (level : string) (msg : LogArg)
| setVariableValues (values : list (variableId.t * jsval))
| checkFeedbacks (ids : list feedbackId.t)
| init_actions.

Record Config : Type := mkConfig
  { host : option string;   (* [None]: not configured ([undefined]) *)
    port : jsval }.

(** [self]: the configuration, the two fields the module writes, and the
    calls it has made into the host, most recent first. *)
Record OnTimeInstance : Type := mkInstance
  { config : Config;
    states : jsval;
    events : jsval;
    calls : list HostCall }.

(** ** Sockets, timers, requests *)

Inductive ReadyState : Type := CONNECTING | OPEN | CLOSING | CLOSED.

Record Websocket : Type := mkWebsocket
  { address : string;
    readyState : ReadyState;
    sent : list string }.   (* frames handed to [send], most recent first *)

(** A pending timer.  The module has one timer callback, the reconnect
    check of [ws.onclose], so a timer is its handle and its delay. *)
Record Timeout : Type := mkTimeout
  { handle : nat;
    delay : Z }.

(** Who awaits a pending [initEvents]: the refetch branch chains
    [.then(init_actions, log)], a call from the host chains nothing here. *)
Inductive Awaiter : Type := FromRefetch | FromHost.

Record Request : Type := mkRequest
  { url : string;
    awaiter : Awaiter }.

Record World : Type := mkWorld
  { ws : option nat;                   (* [let ws], an index into [sockets] *)
    reconnectionTimeout : option nat;  (* [let reconnectionTimeout], a timer handle *)
    shouldReconnect : bool;            (* [let shouldReconnect] *)
    sockets : list Websocket;          (* every socket the module has created *)
    timers : list Timeout;             (* timers set and neither fired nor cleared *)
    next_handle : nat;
    requests : list Request;           (* HTTP requests in flight *)
    self : OnTimeInstance }.

Definition reconnectInterval : Z := 1000.

(** The world when the module is loaded: the three variables as lines
    8-11 initialise them, nothing created yet; the host instance has
    received no state, and its event directory starts empty. *)
Definition initial (cfg : Config) : World :=
  {| ws := None;
     reconnectionTimeout := None;
     shouldReconnect := true;
     sockets := [];
     timers := [];
     next_handle := O;
     requests := [];
     self := {| config := cfg; states := JUndefined; events := JArr []; calls := [] |} |}.

(** ** Computations that may throw *)

(** A handler body: it runs on the world, completes or throws, and in
    both cases leaves the world with the effects performed so far. *)
Definition JS (A : Type) : Type := World -> completion A * World.

Definition ret {A} (a : A) : JS A := fun w => (Normal a, w).

Definition bind {A B} (m : JS A) (k : A -> JS B) : JS B :=
  fun w =>
    match m w with
    | (Normal a, w') => k a w'
    | (Throw e, w') => (Throw e, w')
    end.

Definition lift {A} (c : completion A) : JS A := fun w => (c, w).

(** [try { m } catch (e) { h e }] *)
Definition try_catch {A} (m : JS A) (h : JsError -> JS A) : JS A :=
  fun w =>
    match m w with
    | (Normal a, w') => (Normal a, w')
    | (Throw e, w') => h e w'
    end.

Declare Scope js_scope.
Delimit Scope js_scope with js.
Notation "x <- c1 ;; c2" := (bind c1 (fun x => c2))
  (at level 61, c1 at next level, right associativity) : js_scope.
Notation "c1 ;; c2" := (bind c1 (fun _ => c2))
  (at level 61, right associativity) : js_scope.
Open Scope js_scope.

Definition gets {A} (f : World -> A) : JS A := fun w => (Normal (f w), w).
Definition modify (f : World -> World) : JS unit := fun w => (Normal tt, f w).

(** *** Field updates *)

Definition with_ws (x : option nat) (w : World) : World :=
  mkWorld x (reconnectionTimeout w) (shouldReconnect w) (sockets w) (timers w)
    (next_handle w) (requests w) (self w).
Definition with_reconnectionTimeout (x : option nat) (w : World) : World :=
  mkWorld (ws w) x (shouldReconnect w) (sockets w) (timers w)
    (next_handle w) (requests w) (self w).
Definition with_shouldReconnect (x : bool) (w : World) : World :=
  mkWorld (ws w) (reconnectionTimeout w) x (sockets w) (timers w)
    (next_handle w) (requests w) (self w).
Definition with_sockets (x : list Websocket) (w : World) : World :=
  mkWorld (ws w) (reconnectionTimeout w) (shouldReconnect w) x (timers w)
    (next_handle w) (requests w) (self w).
Definition with_timers (x : list Timeout) (w : World) : World :=
  mkWorld (ws w) (reconnectionTimeout w) (shouldReconnect w) (sockets w) x
    (next_handle w) (requests w) (self w).
Definition with_next_handle (x : nat) (w : World) : World :=
  mkWorld (ws w) (reconnectionTimeout w) (shouldReconnect w) (sockets w) (timers w)
    x (requests w) (self w).
Definition with_requests (x : list Request) (w : World) : World :=
  mkWorld (ws w) (reconnectionTimeout w) (shouldReconnect w) (sockets w) (timers w)
    (next_handle w) x (self w).
Definition with_self (x : OnTimeInstance) (w : World) : World :=
  mkWorld (ws w) (reconnectionTimeout w) (shouldReconnect w) (sockets w) (timers w)
    (next_handle w) (requests w) x.

Definition with_states (x : jsval) (s : OnTimeInstance) : OnTimeInstance :=
  mkInstance (config s) x (events s) (calls s).
Definition with_events (x : jsval) (s : OnTimeInstance) : OnTimeInstance :=
  mkInstance (config s) (states s) x (calls s).
Definition with_calls (x : list HostCall) (s : OnTimeInstance) : OnTimeInstance :=
  mkInstance (config s) (states s) (events s) x.

(** *** The host sink and the runtime's timers and sockets *)

(** [self.updateStatus(..)], [self.log(..)], ...: the call is recorded. *)
Definition call (c : HostCall) : JS unit :=
  modify (fun w => with_self (with_calls (c :: calls (self w)) (self w)) w).

Definition set_states (v : jsval) : JS unit :=
  modify (fun w => with_self (with_states v (self w)) w).
Definition set_events (v : jsval) : JS unit :=
  modify (fun w => with_self (with_events v (self w)) w).

(** [setTimeout(reconnect check, d)]: a fresh handle, pending. *)
Definition setTimeout (d : Z) : JS nat :=
  fun w =>
    let h := next_handle w in
    (Normal h, with_next_handle (S h) (with_timers (timers w ++ [mkTimeout h d]) w)).

(** [clearTimeout(t)]: a pending timer is dropped; [null], or a timer
    that has fired or was cleared, is ignored. *)
Definition clearTimeout (t : option nat) : JS unit :=
  match t with
  | None => ret tt
  | Some h =>
      modify (fun w =>
        with_timers (filter (fun x => negb (Nat.eqb (handle x) h)) (timers w)) w)
  end.

Fixpoint modify_nth {A} (i : nat) (f : A -> A) (l : list A) : list A :=
  match l, i with
  | [], _ => []
  | x :: rest, O => f x :: rest
  | x :: rest, S j => x :: modify_nth j f rest
  end.

Definition with_readyState (r : ReadyState) (s : Websocket) : Websocket :=
  mkWebsocket (address s) r (sent s).

(** [new Websocket(address)]: the constructor throws on an address it
    does not take, and nothing is created; otherwise the socket starts
    connecting. *)
Definition new_Websocket `{Runtime} (addr : string) : JS nat :=
  fun w =>
    if address_accepted addr then
      (Normal (List.length (sockets w)),
       with_sockets (sockets w ++ [mkWebsocket addr CONNECTING []]) w)
    else (Throw SyntaxError, w).

(** [socket.close()]: a connecting or open socket starts closing (its
    close event comes later); a closing or closed one is left alone. *)
Definition Websocket_close (i : nat) : JS unit :=
  modify (fun w =>
    with_sockets
      (modify_nth i
         (fun s => match readyState s with
                   | CONNECTING | OPEN => with_readyState CLOSING s
                   | CLOSING | CLOSED => s
                   end) (sockets w)) w).

Definition Websocket_send (i : nat) (message : string) : JS unit :=
  modify (fun w =>
    with_sockets
      (modify_nth i (fun s => mkWebsocket (address s) (readyState s) (message :: sent s))
         (sockets w)) w).

Definition readyState_of (w : World) (i : nat) : option ReadyState :=
  option_map readyState (nth_error (sockets w) i).

(** *** Evaluation that may throw, without effects *)

Definition cbind {A B} (c : completion A) (k : A -> completion B) : completion B :=
  match c with
  | Normal a => k a
  | Throw e => Throw e
  end.

(** The callback applied to the elements in order; the first throw ends it. *)
Fixpoint map_throwing {A B} (f : A -> completion B) (l : list A) : completion (list B) :=
  match l with
  | [] => Normal []
  | x :: rest =>
      cbind (f x) (fun y => cbind (map_throwing f rest) (fun ys => Normal (y :: ys)))
  end.

(** [v.map(f)]: the method exists on an array only; on the other values
    (no JSON value holds a function) the call is a [TypeError]. *)
Definition Array_map (v : jsval) (f : jsval -> completion jsval) : completion jsval :=
  match v with
  | JArr l => cbind (map_throwing f l) (fun l' => Normal (JArr l'))
  | JUndefined | JNull => Throw (Js.read_error v)
  | _ => Throw (TypeError "map is not a function")
  end.

(** How a request ends: [axios.get] resolves with a response whose [data]
    is given, or rejects (no answer, or a status outside 2xx). *)
Inductive Response : Type :=
| Fulfilled (data : jsval)
| Rejected (e : JsError).

(** ** The module's functions *)

Section Connection.

Context `{Runtime}.

(** [/^((http|https):\/\/)/]: [test], and [replace] with the empty string. *)
Definition pattern_test (h : string) : bool :=
  String.prefix "http://" h || String.prefix "https://" h.

Definition pattern_replace (h : string) : string :=
  if String.prefix "http://" h then substring 7 (String.length h - 7) h
  else if String.prefix "https://" h then substring 8 (String.length h - 8) h
  else h.

(** [!host]: an absent or empty host is falsy. *)
Definition host_truthy (h : option string) : bool :=
  match h with
  | None => false
  | Some s => negb (s =? "")%string
  end.

(** [`${host}`] for the configured host. *)
Definition host_text (h : option string) : string :=
  match h with
  | None => "undefined"
  | Some s => s
  end.

(** [connect(self)], lines 13-35: up to the creation of the socket.  The
    four handlers it then installs are [onopen], [onclose], [onerror] and
    [onmessage] below; they close over [self] and the module variables
    only, so every socket the module creates carries the same four.
    Nothing in [connect] catches what the constructor throws: the
    assignment to [ws] is then not reached and the throw is [connect]'s. *)
Definition connect : JS unit :=
  cfg <- gets (fun w => config (self w)) ;;
  let host := host cfg in
  let port := port cfg in
  if negb (host_truthy host) || negb (Js.truthy port) then
    call (updateStatus BadConfig (Some "no host and/or port defined"))
  else
    call (updateStatus Connecting None) ;;
    old <- gets ws ;;
    match old with
    | Some i => Websocket_close i
    | None => ret tt
    end ;;
    (* [host.replace(pattern, '')] is an expression statement: strings are
       immutable and the value it returns is dropped. *)
    (if pattern_test (host_text host)
     then let _ := pattern_replace (host_text host) in ret tt
     else ret tt) ;;
    i <- new_Websocket ("ws://" ++ host_text host ++ ":" ++ Js.ToString port ++ "/ws") ;;
    modify (with_ws (Some i)).

(** [ws.onopen] *)
Definition onopen : JS unit :=
  t <- gets reconnectionTimeout ;;
  clearTimeout t ;;
  call (updateStatus Ok None) ;;
  call (log "debug" (Text "Socket connected")).

(** The callback [ws.onclose] hands to [setTimeout]. *)
Definition reconnect_check : JS unit :=
  w <- gets (fun w => w) ;;
  match ws w with
  | Some i =>
      match readyState_of w i with
      | Some CLOSED => connect
      | _ => ret tt
      end
  | None => ret tt
  end.

(** [ws.onclose] *)
Definition onclose (code : jsval) : JS unit :=
  let msg := "Connection closed with code " ++ Js.ToString code in
  call (log "debug" (Text msg)) ;;
  call (updateStatus Disconnected (Some msg)) ;;
  again <- gets shouldReconnect ;;
  if again then
    t <- setTimeout reconnectInterval ;;
    modify (with_reconnectionTimeout (Some t))
  else ret tt.

(** [ws.onerror] *)
Definition onerror (data : jsval) : JS unit :=
  call (log "debug" (Text ("WebSocket error: " ++ Js.ToString data))).

(** [disconnectSocket()] *)
Definition disconnectSocket : JS unit :=
  modify (with_shouldReconnect false) ;;
  t <- gets reconnectionTimeout ;;
  match t with
  | Some _ => clearTimeout t
  | None => ret tt
  end ;;
  cur <- gets ws ;;
  match cur with
  | Some i => Websocket_close i
  | None => ret tt
  end.

(** [socketSend(message)] *)
Definition socketSend (message : string) : JS unit :=
  w <- gets (fun w => w) ;;
  match ws w with
  | Some i =>
      match readyState_of w i with
      | Some OPEN => Websocket_send i message
      | _ => ret tt
      end
  | None => ret tt
  end.

(** [socketSendJson(type, payload)] *)
Definition socketSendJson (type : string) (payload : jsval) : JS unit :=
  socketSend (JSON_stringify (JObj [("type", JStr type); ("payload", payload)])).

(** [(evt) => ({ id: evt.id, label: evt.title })] *)
Definition event_record (evt : jsval) : completion jsval :=
  cbind (Js.get_prop evt "id") (fun id =>
  cbind (Js.get_prop evt "title") (fun title =>
  Normal (JObj [("id", id); ("label", title)]))).

(** [initEvents(self)] up to the [await]: the log line and the request. *)
Definition initEvents_start (a : Awaiter) : JS unit :=
  call (log "debug" (Text "fetching events from ontime")) ;;
  cfg <- gets (fun w => config (self w)) ;;
  let address :=
    "http://" ++ host_text (host cfg) ++ ":" ++ Js.ToString (port cfg) ++ "/events" in
  modify (fun w => with_requests (requests w ++ [mkRequest address a]) w).

(** [initEvents(self)] from the [await] on, once the request has ended.
    A throw of this computation would be the rejection of the promise
    [initEvents] returned. *)
Definition initEvents_resume (r : Response) : JS unit :=
  try_catch
    (data <- lift (match r with
                   | Fulfilled d => Normal d
                   | Rejected e => Throw e
                   end) ;;
     len <- lift (Js.get_prop data "length") ;;
     call (log "debug" (Text ("fetched " ++ Js.ToString len ++ " events"))) ;;
     mapped <- lift (Array_map data event_record) ;;
     set_events mapped)
    (fun e =>
       call (log "error" (Text "failed to fetch events from ontime")) ;;
       call (log "error" (Caught e))).

(** The end of a request together with what was chained on the promise:
    [.then(() => self.init_actions(), (e) => self.log('debug', e))] in the
    refetch branch. *)
Definition settle (a : Awaiter) (r : Response) : JS unit :=
  fun w =>
    match initEvents_resume r w, a with
    | (Normal _, w'), FromRefetch => call init_actions w'
    | (Throw e, w'), FromRefetch => call (log "debug" (Caught e)) w'
    | res, FromHost => res
    end.

(** [self.states.a.b] *)
Definition states_read (a b : string) : JS jsval :=
  s <- gets (fun w => states (self w)) ;;
  x <- lift (Js.get_prop s a) ;;
  lift (Js.get_prop x b).

(** [self.states.a] *)
Definition states_field (a : string) : JS jsval :=
  s <- gets (fun w => states (self w)) ;;
  lift (Js.get_prop s a).

Definition hms (t : ReadableTime) : jsval :=
  JStr (hours t ++ ":" ++ minutes t ++ ":" ++ seconds t).

Definition all_feedbacks : list feedbackId.t :=
  [ feedbackId.ColorRunning; feedbackId.ColorPaused; feedbackId.ColorStopped;
    feedbackId.ColorRoll; feedbackId.ColorNegative; feedbackId.OnAir;
    feedbackId.SpeakerMessageVisible; feedbackId.PublicMessageVisible;
    feedbackId.LowerMessageVisible ].

(** Lines 82-119: the argument of [setVariableValues], its values
    evaluated in source order, then the two calls. *)
Definition publish (timer clock timer_start timer_finish : ReadableTime)
    (delay : string) : JS unit :=
  playback <- states_field "playback" ;;
  onAir <- states_field "onAir" ;;
  titleNow <- states_read "titles" "titleNow" ;;
  subtitleNow <- states_read "titles" "subtitleNow" ;;
  presenterNow <- states_read "titles" "presenterNow" ;;
  noteNow <- states_read "titles" "noteNow" ;;
  titleNext <- states_read "titles" "titleNext" ;;
  subtitleNext <- states_read "titles" "subtitleNext" ;;
  presenterNext <- states_read "titles" "presenterNext" ;;
  noteNext <- states_read "titles" "noteNext" ;;
  timerMessage <- states_read "timerMessage" "text" ;;
  publicMessage <- states_read "publicMessage" "text" ;;
  lowerMessage <- states_read "lowerMessage" "text" ;;
  call (setVariableValues
    [ (variableId.Time, hms timer);
      (variableId.TimeHM, JStr (hours timer ++ ":" ++ minutes timer));
      (variableId.TimeH, JStr (hours timer));
      (variableId.TimeM, JStr (minutes timer));
      (variableId.TimeS, JStr (seconds timer));
      (variableId.Clock, hms clock);
      (variableId.TimerStart, hms timer_start);
      (variableId.TimerFinish, hms timer_finish);
      (variableId.TimerDelay, JStr delay);
      (variableId.PlayState, playback);
      (variableId.OnAir, onAir);
      (variableId.TitleNow, titleNow);
      (variableId.SubtitleNow, subtitleNow);
      (variableId.SpeakerNow, presenterNow);
      (variableId.NoteNow, noteNow);
      (variableId.TitleNext, titleNext);
      (variableId.SubtitleNext, subtitleNext);
      (variableId.SpeakerNext, presenterNext);
      (variableId.NoteNext, noteNext);
      (variableId.SpeakerMessage, timerMessage);
      (variableId.PublicMessage, publicMessage);
      (variableId.LowerMessage, lowerMessage) ]) ;;
  call (checkFeedbacks all_feedbacks).

(** The branch [type === 'ontime'], lines 71-119. *)
Definition ontime_branch (payload : jsval) : JS unit :=
  set_states payload ;;
  c <- states_read "timer" "current" ;;
  let timer := toReadableTime c in
  c <- states_read "timer" "clock" ;;
  let clock := toReadableTime c in
  c <- states_read "timer" "startedAt" ;;
  let timer_start := toReadableTime c in
  c <- states_read "timer" "expectedFinish" ;;
  let timer_finish := toReadableTime c in
  c <- states_read "timer" "addedTime" ;;
  let delay := mstoTime c in
  (* [self.states.isNegative = self.states.timer.current < 0] *)
  s <- gets (fun w => states (self w)) ;;
  c <- states_read "timer" "current" ;;
  s' <- lift (Js.put_prop s "isNegative" (JBool (lt_zero c))) ;;
  set_states s' ;;
  publish timer clock timer_start timer_finish delay.

(** The branch [type === 'ontime-refetch'], lines 123-132. *)
Definition refetch_branch : JS unit :=
  call (log "debug" (Text "refetching events")) ;;
  set_events (JArr []) ;;
  initEvents_start FromRefetch.

(** The [try] block of [ws.onmessage], lines 60-133. *)
Definition onmessage_try (event_data : string) : JS unit :=
  data <- lift (match JSON_parse event_data with
                | Some d => Normal d
                | None => Throw SyntaxError
                end) ;;
  (* [const { type, payload } = data] *)
  type <- lift (Js.get_prop data "type") ;;
  payload <- lift (Js.get_prop data "payload") ;;
  if negb (Js.truthy type) then ret tt
  else
    (if Js.strict_eq_str type "ontime" then ontime_branch payload else ret tt) ;;
    (if Js.strict_eq_str type "ontime-refetch" then refetch_branch else ret tt).

(** [ws.onmessage]: [catch (_) { }] swallows whatever the block throws. *)
Definition onmessage (event_data : string) : JS unit :=
  try_catch (onmessage_try event_data) (fun _ => ret tt).

(** ** The event loop *)

(** What can happen to the module: the host calls one of its exported
    functions, or the runtime delivers a socket event, fires a timer, or
    ends a request. *)
Inductive Event : Type :=
| Call_connect
| Call_disconnectSocket
| Call_socketSend (message : string)
| Call_socketSendJson (type : string) (payload : jsval)
| Call_initEvents
| Socket_open (i : nat)
| Socket_close (i : nat) (code : jsval)
| Socket_error (i : nat) (data : jsval)
| Socket_message (i : nat) (event_data : string)
| Timer_fires (h : nat)
| Request_ends (k : nat) (r : Response).

(** The world a call leaves.  What it throws and nothing catches goes to
    its caller, or to the loop for a handler; the effects made before the
    throw stay. *)
Definition run (m : JS unit) (w : World) : World := snd (m w).

Definition set_readyState (i : nat) (r : ReadyState) (w : World) : World :=
  with_sockets (modify_nth i (with_readyState r) (sockets w)) w.

Definition pending (h : nat) (w : World) : bool :=
  existsb (fun t => Nat.eqb (handle t) h) (timers w).

Fixpoint remove_nth {A} (k : nat) (l : list A) : list A :=
  match l, k with
  | [], _ => []
  | _ :: rest, O => rest
  | x :: rest, S j => x :: remove_nth j rest
  end.

(** One turn of the loop.  An event that cannot occur in the world (an
    open event on a socket that is not connecting, a close event on a
    socket already closed, a timer that is not pending, ...) leaves it as
    it is. *)
Definition step (e : Event) (w : World) : World :=
  match e with
  | Call_connect => run connect w
  | Call_disconnectSocket => run disconnectSocket w
  | Call_socketSend m => run (socketSend m) w
  | Call_socketSendJson t p => run (socketSendJson t p) w
  | Call_initEvents => run (initEvents_start FromHost) w
  | Socket_open i =>
      match readyState_of w i with
      | Some CONNECTING => run onopen (set_readyState i OPEN w)
      | _ => w
      end
  | Socket_close i code =>
      match readyState_of w i with
      | Some CONNECTING | Some OPEN | Some CLOSING =>
          run (onclose code) (set_readyState i CLOSED w)
      | _ => w
      end
  | Socket_error i data =>
      match readyState_of w i with
      | Some _ => run (onerror data) w
      | None => w
      end
  | Socket_message i event_data =>
      match readyState_of w i with
      | Some OPEN | Some CLOSING => run (onmessage event_data) w
      | _ => w
      end
  | Timer_fires h =>
      if pending h w then
        run reconnect_check
          (with_timers (filter (fun x => negb (Nat.eqb (handle x) h)) (timers w)) w)
      else w
  | Request_ends k r =>
      match nth_error (requests w) k with
      | Some q => run (settle (awaiter q) r) (with_requests (remove_nth k (requests w)) w)
      | None => w
      end
  end.

Definition steps (es : list Event) (w : World) : World :=
  fold_left (fun w e => step e w) es w.

End Connection.

(** ** A reference runtime

    A concrete [Runtime], to run the handlers on actual frames: a reader
    and a printer for the JSON texts made of [null], [true], [false],
    integers, strings without escapes, arrays and objects, and helpers
    that format a millisecond count. *)
Module Reference.

Definition is_space (c : ascii) : bool :=
  match c with
  | " "%char | "009"%char | "010"%char | "013"%char => true
  | _ => false
  end.

Fixpoint skip (s : string) : string :=
  match s with
  | String c rest => if is_space c then skip rest else s
  | EmptyString => s
  end.

Definition digit (c : ascii) : option Z :=
  let n := Z.of_nat (nat_of_ascii c) in
  if (48 <=? n) && (n <=? 57) then Some (n - 48) else None.

(** The digits at the front of [s], their value so far in [acc]. *)
Fixpoint digits (acc : Z) (s : string) : Z * string :=
  match s with
  | String c rest =>
      match digit c with
      | Some d => digits (10 * acc + d) rest
      | None => (acc, s)
      end
  | EmptyString => (acc, s)
  end.

(** An integer literal: one digit at least, no leading zero, and no
    fraction or exponent after it. *)
Definition natural (s : string) : option (Z * string) :=
  match s with
  | String c rest =>
      match digit c with
      | Some d =>
          let '(n, s') := if d =? 0 then (0, rest) else digits d rest in
          match s' with
          | String c' _ =>
              match digit c', c' with
              | Some _, _ => None
              | None, ("."%char | "e"%char | "E"%char) => None
              | None, _ => Some (n, s')
              end
          | EmptyString => Some (n, s')
          end
      | None => None
      end
  | EmptyString => None
  end.

(** The characters up to the closing quote. *)
Fixpoint chars (s : string) : option (string * string) :=
  match s with
  | String c rest =>
      if Ascii.eqb c "034"%char then Some (EmptyString, rest)
      else if Ascii.eqb c "\"%char then None
      else if (Z.of_nat (nat_of_ascii c) <? 32) then None
      else match chars rest with
           | Some (t, s') => Some (String c t, s')
           | None => None
           end
  | EmptyString => None
  end.

Fixpoint value (fuel : nat) (s : string) : option (jsval * string) :=
  match fuel with
  | O => None
  | S fuel' =>
      let s := skip s in
      if String.prefix "null" s then Some (JNull, substring 4 (String.length s - 4) s)
      else if String.prefix "true" s then Some (JBool true, substring 4 (String.length s - 4) s)
      else if String.prefix "false" s then Some (JBool false, substring 5 (String.length s - 5) s)
      else
        match s with
        | String "034"%char rest =>
            match chars rest with
            | Some (t, s') => Some (JStr t, s')
            | None => None
            end
        | String "-" rest =>
            match natural rest with
            | Some (n, s') => Some (JNum (- n), s')
            | None => None
            end
        | String "[" rest =>
            match skip rest with
            | String "]" s' => Some (JArr [], s')
            | _ =>
                match elements fuel' rest with
                | Some (l, s') => Some (JArr l, s')
                | None => None
                end
            end
        | String "{" rest =>
            match skip rest with
            | String "}" s' => Some (JObj [], s')
            | _ =>
                match members fuel' rest with
                | Some (l, s') => Some (JObj l, s')
                | None => None
                end
            end
        | _ =>
            match natural s with
            | Some (n, s') => Some (JNum n, s')
            | None => None
            end
        end
  end
with elements (fuel : nat) (s : string) : option (list jsval * string) :=
  match fuel with
  | O => None
  | S fuel' =>
      match value fuel' s with
      | Some (v, s') =>
          match skip s' with
          | String "]" s'' => Some ([v], s'')
          | String "," s'' =>
              match elements fuel' s'' with
              | Some (l, s3) => Some (v :: l, s3)
              | None => None
              end
          | _ => None
          end
      | None => None
      end
  end
with members (fuel : nat) (s : string) : option (list (string * jsval) * string) :=
  match fuel with
  | O => None
  | S fuel' =>
      match skip s with
      | String "034"%char rest =>
          match chars rest with
          | Some (k, s') =>
              match skip s' with
              | String ":" s'' =>
                  match value fuel' s'' with
                  | Some (v, s3) =>
                      match skip s3 with
                      | String "}" s4 => Some ([(k, v)], s4)
                      | String "," s4 =>
                          match members fuel' s4 with
                          (* a repeated key keeps its last value *)
                          | Some (l, s5) =>
                              Some (if existsb (fun kv => (fst kv =? k)%string) l
                                    then l else (k, v) :: l, s5)
                          | None => None
                          end
                      | _ => None
                      end
                  | None => None
                  end
              | _ => None
              end
          | None => None
          end
      | _ => None
      end
  end.

Definition parse (s : string) : option jsval :=
  match value (S (S (String.length s))) s with
  | Some (v, rest) =>
      match skip rest with
      | EmptyString => Some v
      | _ => None
      end
  | None => None
  end.

Definition quoted (s : string) : string :=
  String "034"%char (s ++ String "034"%char EmptyString).

Fixpoint stringify (v : jsval) : string :=
  match v with
  | JUndefined | JNull => "null"
  | JBool true => "true"
  | JBool false => "false"
  | JNum n => Js.Z_to_string n
  | JFraction _ text => text
  | JStr s => quoted s
  | JArr l => "[" ++ Js.join "," (map stringify l) ++ "]"
  | JObj props =>
      "{" ++ Js.join ","
               ((fix each (ps : list (string * jsval)) : list string :=
                   match ps with
                   | [] => []
                   (* a property whose value is [undefined] is left out *)
                   | (_, JUndefined) :: rest => each rest
                   | (k, x) :: rest => (quoted k ++ ":" ++ stringify x) :: each rest
                   end) props) ++ "}"
  end.

Definition pad2 (n : Z) : string :=
  if n <? 10 then "0" ++ Js.Z_to_string n else Js.Z_to_string n.

(** Modelled from the spec: [toReadableTime] of [../utilities], a
    millisecond value as zero-padded hours, minutes and seconds. *)
Definition toReadableTime (v : jsval) : ReadableTime :=
  match v with
  | JNum ms =>
      let s := Z.abs ms / 1000 in
      mkReadableTime (pad2 ((s / 3600) mod 24)) (pad2 ((s / 60) mod 60)) (pad2 (s mod 60))
  | _ => mkReadableTime "00" "00" "00"
  end.

(** Modelled from the spec: [mstoTime] of [../utilities], a millisecond
    delta as a formatted delay. *)
Definition mstoTime (v : jsval) : string :=
  let t := toReadableTime v in
  let body := hours t ++ ":" ++ minutes t ++ ":" ++ seconds t in
  match v with
  | JNum ms => if ms <? 0 then "-" ++ body else body
  | _ => body
  end.

Definition below_zero (s : string) : bool :=
  match skip s with
  | String "-" rest =>
      match natural rest with
      | Some (n, s') =>
          match skip s' with
          | EmptyString => 0 <? n
          | _ => false
          end
      | None => false
      end
  | _ => false
  end.

(** The text before the first [c], and the text after it if there is one. *)
Fixpoint before (c : ascii) (s : string) : string :=
  match s with
  | String c' rest => if Ascii.eqb c' c then EmptyString else String c' (before c rest)
  | EmptyString => EmptyString
  end.

Fixpoint after (c : ascii) (s : string) : option string :=
  match s with
  | String c' rest => if Ascii.eqb c' c then Some rest else after c rest
  | EmptyString => None
  end.

(** A character a host name may hold: printable, and none of the
    characters a URL forbids in a host. *)
Definition host_char (c : ascii) : bool :=
  let n := nat_of_ascii c in
  (32 <? n)%nat && (n <? 127)%nat
  && negb (existsb (Nat.eqb n) [35; 37; 47; 58; 60; 62; 63; 64; 91; 92; 93; 94; 124]%nat).

Fixpoint all_chars (ok : ascii -> bool) (s : string) : bool :=
  match s with
  | String c rest => ok c && all_chars ok rest
  | EmptyString => true
  end.

(** A port: digits only, none at all or a number up to 65535. *)
Definition port_ok (p : string) : bool :=
  match digits 0 p with
  | (n, EmptyString) => n <=? 65535
  | _ => false
  end.

(** The addresses [ws://host/...] and [ws://host:port/...] with a plain
    host name, among those the constructor takes. *)
Definition accepted (addr : string) : bool :=
  if String.prefix "ws://" addr then
    let authority := before "/" (substring 5 (String.length addr - 5) addr) in
    let h := before ":" authority in
    negb (h =? "")%string && all_chars host_char h
    && match after ":" authority with
       | Some p => port_ok p
       | None => true
       end
  else false.

Definition runtime : Runtime :=
  Build_Runtime parse stringify toReadableTime mstoTime below_zero accepted.

End Reference.

(** ** Vocabulary of the statements *)

Definition example_config : Config := mkConfig (Some "localhost") (JNum 4001).

Definition schemed_config : Config := mkConfig (Some "http://localhost") (JNum 4001).

(** [v.k] as a value: [undefined] where the read would throw. *)
Definition field (v : jsval) (k : string) : jsval :=
  match Js.get_prop v k with
  | Normal x => x
  | Throw _ => JUndefined
  end.

(** The [type] of a parsed message as the handler sees it: [undefined]
    when the message has none. *)
Definition message_type (msg : jsval) : jsval := field msg "type".

(** The world after a host call [c]. *)
Definition called (c : HostCall) (w : World) : World :=
  with_self (with_calls (c :: calls (self w)) (self w)) w.







(** The directory entry the spec gives for a response element. *)
Definition directory_entry (evt : jsval) : jsval :=
  JObj [("id", field evt "id"); ("label", field evt "title")].

(** The log line of a fetch that got [n] elements. *)
Definition fetched (n : nat) : HostCall :=
  log "debug" (Text ("fetched " ++ Js.Z_to_string (Z.of_nat n) ++ " events")).

(** The world after the two log lines of the [catch] of [initEvents]. *)
Definition failed (e : JsError) (w : World) : World :=
  called (log "error" (Caught e))
    (called (log "error" (Text "failed to fetch events from ontime")) w).

(** [m] leaves the world related by [Rel] to the one it started in,
    whether it completes or throws. *)
Definition respects {B} (Rel : World -> World -> Prop) (m : JS B) : Prop :=
  forall w, Rel w (snd (m w)).

(** [m] leaves the component [f] of the world as it finds it. *)
Definition keeps {A B} (f : World -> A) (m : JS B) : Prop :=
  respects (fun w w' => f w' = f w) m.

(** Handles are given out in increasing order: from [w] to [w'] no
    handle below [next_handle w] has become pending. *)
Definition grows (w w' : World) : Prop :=
  (next_handle w <= next_handle w')%nat /\
  forall t, In t (timers w') -> In t (timers w) \/ (next_handle w <= handle t)%nat.

(** The recorded handle, and those of the pending timers, have been
    given out. *)
Definition allocated (w : World) : Prop :=
  (forall h, reconnectionTimeout w = Some h -> (h < next_handle w)%nat) /\
  (forall t, In t (timers w) -> (handle t < next_handle w)%nat).

(** [allocated] is carried from the first world to the second. *)
Definition carries (w w' : World) : Prop := allocated w -> allocated w'.

(** The connection's own state: what the socket and timer code works on. *)
Definition connection (w : World) :=
  (ws w, reconnectionTimeout w, shouldReconnect w, sockets w, timers w, next_handle w,
   config (self w)).

(** The current socket and the sockets created so far. *)
Definition current (w : World) := (ws w, sockets w).

(** A socket that is connecting or open. *)
Definition is_live (s : Websocket) : bool :=
  match readyState s with
  | CONNECTING | OPEN => true
  | CLOSING | CLOSED => false
  end.

(** Every socket that is connecting or open is the current one. *)
Definition live_is_current (w : World) : Prop :=
  forall j s, nth_error (sockets w) j = Some s -> is_live s = true -> ws w = Some j.

(** What [close()] makes of a socket, as in [Websocket_close]. *)
Definition close_state (s : Websocket) : Websocket :=
  match readyState s with
  | CONNECTING | OPEN => with_readyState CLOSING s
  | CLOSING | CLOSED => s
  end.

(** The addresses the two template literals build for the configuration. *)
Definition reconnect_address (w : World) : string :=
  "ws://" ++ host_text (host (config (self w))) ++ ":"
    ++ Js.ToString (port (config (self w))) ++ "/ws".

Definition events_address (w : World) : string :=
  "http://" ++ host_text (host (config (self w))) ++ ":"
    ++ Js.ToString (port (config (self w))) ++ "/events".

(** The world [connect] leaves when the constructor throws: the status
    signalled and [close()] called on the current socket. *)
Definition connect_attempted (w : World) : World :=
  with_sockets
    (match ws w with
     | Some i => modify_nth i close_state (sockets w)
     | None => sockets w
     end)
    (called (updateStatus Connecting None) w).

(** The world [connect] leaves when it returns: one socket more, connecting
    to the configured address, as the current one. *)
Definition connect_done (w : World) : World :=
  with_ws (Some (List.length (sockets w)))
    (with_sockets
       (sockets (connect_attempted w) ++ [mkWebsocket (reconnect_address w) CONNECTING []])
       (connect_attempted w)).

(** The world once the timers with handle [h] are gone. *)
Definition without_timer (h : nat) (w : World) : World :=
  with_timers (filter (fun x => negb (Nat.eqb (handle x) h)) (timers w)) w.

(** No element is [null] or [undefined]. *)
Definition all_present (l : list jsval) : bool :=
  forallb (fun evt => negb (Js.nullish evt)) l.

(** Reconnection is disabled and no timer is pending. *)
Definition quiet (w : World) : Prop :=
  shouldReconnect w = false /\ timers w = [].

(** A directory left by an earlier fetch. *)
Definition old_directory : jsval :=
  JArr [ JObj [("id", JStr "1"); ("label", JStr "Open")];
         JObj [("id", JStr "2"); ("label", JStr "Keynote")] ].

(** Two calls of [connect], both sockets closed, then the disconnect. *)
Definition overlapping_closes : list Event :=
  [ Call_connect; Call_connect;
    Socket_close 0 (JNum 1005); Socket_close 1 (JNum 1006);
    Call_disconnectSocket ].

(** ** Properties *)

(** *** The monad *)

Lemma bind_normal {A B} (m : JS A) (k : A -> JS B) w a w' :
  m w = (Normal a, w') -> bind m k w = k a w'.
Proof. intros E. unfold bind. now rewrite E. Qed.

Lemma bind_throw {A B} (m : JS A) (k : A -> JS B) w e w' :
  m w = (Throw e, w') -> bind m k w = (Throw e, w').
Proof. intros E. unfold bind. now rewrite E. Qed.


Lemma try_catch_swallow (m : JS unit) w :
  try_catch m (fun _ => ret tt) w = (Normal tt, snd (m w)).
Proof. unfold try_catch. destruct (m w) as [[[]|e] w']; reflexivity. Qed.

Section Frame.

Variable Rel : World -> World -> Prop.
Hypothesis Rel_refl : forall w, Rel w w.
Hypothesis Rel_trans : forall w1 w2 w3, Rel w1 w2 -> Rel w2 w3 -> Rel w1 w3.

Lemma respects_ret {B} (b : B) : respects Rel (ret b).
Proof. intros w. apply Rel_refl. Qed.

Lemma respects_lift {B} (c : completion B) : respects Rel (lift c).
Proof. intros w. apply Rel_refl. Qed.

Lemma respects_gets {B} (g : World -> B) : respects Rel (gets g).
Proof. intros w. apply Rel_refl. Qed.

Lemma respects_modify (g : World -> World) :
  (forall w, Rel w (g w)) -> respects Rel (modify g).
Proof. intros G w. apply G. Qed.

Lemma respects_bind {B C} (m : JS B) (k : B -> JS C) :
  respects Rel m -> (forall b, respects Rel (k b)) -> respects Rel (bind m k).
Proof.
  intros M K w. unfold bind. specialize (M w).
  destruct (m w) as [[b|e] w']; simpl in M |- *; [|exact M].
  eapply Rel_trans; [exact M | apply K].
Qed.

Lemma respects_try_catch {B} (m : JS B) (h : JsError -> JS B) :
  respects Rel m -> (forall e, respects Rel (h e)) -> respects Rel (try_catch m h).
Proof.
  intros M K w. unfold try_catch. specialize (M w).
  destruct (m w) as [[b|e] w']; simpl in M |- *; [exact M|].
  eapply Rel_trans; [exact M | apply K].
Qed.

End Frame.

Section Keeps.

Context {A : Type} (f : World -> A).

Lemma keeps_ret {B} (b : B) : keeps f (ret b).
Proof. now apply respects_ret. Qed.

Lemma keeps_lift {B} (c : completion B) : keeps f (lift c).
Proof. now apply respects_lift. Qed.

Lemma keeps_gets {B} (g : World -> B) : keeps f (gets g).
Proof. now apply respects_gets. Qed.

Lemma keeps_modify (g : World -> World) :
  (forall w, f (g w) = f w) -> keeps f (modify g).
Proof. intros G. now apply respects_modify. Qed.

Lemma keeps_bind {B C} (m : JS B) (k : B -> JS C) :
  keeps f m -> (forall b, keeps f (k b)) -> keeps f (bind m k).
Proof. apply respects_bind. congruence. Qed.

Lemma keeps_try_catch {B} (m : JS B) (h : JsError -> JS B) :
  keeps f m -> (forall e, keeps f (h e)) -> keeps f (try_catch m h).
Proof. apply respects_try_catch. congruence. Qed.

End Keeps.

Create HintDb frame.

(** One step through a handler body: the monad's combinators, then a case
    split where the body branches. *)
Ltac frame_step :=
  first
    [ apply keeps_bind; [|intros ?]
    | apply keeps_try_catch; [|intros ?]
    | apply keeps_ret
    | apply keeps_lift
    | apply keeps_gets
    | apply keeps_modify; intros ?; reflexivity
    | progress cbv beta zeta
    | match goal with
      | |- keeps _ (match ?x with _ => _ end) => destruct x
      end ].

Ltac frame := repeat first [ solve [auto with frame nocore] | frame_step ].

(** [keeps f m] for a handler [m] built from primitives that do not write
    the component [f]: the handler is unfolded to the monad's combinators
    and walked through. *)
Ltac untouched :=
  unfold onmessage, onmessage_try, ontime_branch, publish, refetch_branch, states_read,
    states_field, initEvents_resume, initEvents_start, onopen, onclose, onerror,
    reconnect_check, connect, disconnectSocket, socketSendJson, socketSend, call,
    set_states, set_events, clearTimeout, Websocket_close, Websocket_send;
  repeat first
    [ frame_step
    | solve [unfold keeps, respects; intros ?; reflexivity]
    | solve [unfold keeps, respects, new_Websocket; intros ?;
             destruct (address_accepted _); reflexivity] ].

(** The same walk for a relation between the worlds before and after. *)
Ltac related_step refl trans same :=
  first
    [ apply (respects_bind _ trans); [|intros ?]
    | apply (respects_try_catch _ trans); [|intros ?]
    | apply (respects_ret _ refl)
    | apply (respects_lift _ refl)
    | apply (respects_gets _ refl)
    | apply respects_modify; same
    | progress cbv beta zeta
    | match goal with
      | |- respects _ (match ?x with _ => _ end) => destruct x
      end ].

(** *** Values *)

Lemma strict_eq_str_true v s : Js.strict_eq_str v s = true <-> v = JStr s.
Proof.
  destruct v; simpl; try (split; [discriminate | intros E; discriminate E]).
  rewrite String.eqb_eq. split; [now intros -> | now intros [= ->]].
Qed.

Lemma strict_eq_str_false v s : v <> JStr s -> Js.strict_eq_str v s = false.
Proof.
  intros N. destruct (Js.strict_eq_str v s) eqn:E; [|reflexivity].
  now apply strict_eq_str_true in E.
Qed.

Lemma get_prop_nullish v k :
  Js.nullish v = true -> Js.get_prop v k = Throw (Js.read_error v).
Proof. destruct v; simpl; congruence. Qed.

Lemma get_prop_field v k :
  Js.nullish v = false -> Js.get_prop v k = Normal (field v k).
Proof. unfold field. destruct v; simpl; congruence. Qed.

Lemma get_prop_normal v k x : Js.get_prop v k = Normal x -> Js.nullish v = false.
Proof. destruct v; simpl; congruence. Qed.

Lemma field_nullish v k : Js.nullish v = true -> field v k = JUndefined.
Proof. unfold field. intros N. now rewrite get_prop_nullish. Qed.




Lemma nth_error_snoc {A} (l : list A) x : nth_error (l ++ [x]) (List.length l) = Some x.
Proof. rewrite nth_error_app2 by lia. now rewrite Nat.sub_diag. Qed.

(** *** Timer handles *)

Lemma grows_refl w : grows w w.
Proof. split; [lia | auto]. Qed.

Lemma grows_trans w1 w2 w3 : grows w1 w2 -> grows w2 w3 -> grows w1 w3.
Proof.
  intros [L1 T1] [L2 T2]. split; [lia|].
  intros t I. destruct (T2 t I) as [I2|G]; [|right; lia].
  exact (T1 t I2).
Qed.

Lemma grows_same w w' :
  next_handle w' = next_handle w -> timers w' = timers w -> grows w w'.
Proof. intros N T. split; [lia | rewrite T; auto]. Qed.

Lemma grows_pending h w w' :
  grows w w' -> (h < next_handle w)%nat -> pending h w = false -> pending h w' = false.
Proof.
  intros [_ T] L P. unfold pending in *.
  destruct (existsb _ (timers w')) eqn:E; [|reflexivity].
  apply existsb_exists in E as (t & I & Eq). apply Nat.eqb_eq in Eq.
  destruct (T t I) as [I'|G]; [|lia].
  assert (existsb (fun t => Nat.eqb (handle t) h) (timers w) = true) as C.
  { apply existsb_exists. exists t. split; [exact I' | now apply Nat.eqb_eq]. }
  congruence.
Qed.

Lemma filter_grows (keep : Timeout -> bool) w :
  grows w (with_timers (filter keep (timers w)) w).
Proof.
  split; [simpl; lia|]. intros t I. left. simpl in I.
  now apply filter_In in I.
Qed.

Lemma allocated_same w w' :
  next_handle w' = next_handle w -> timers w' = timers w ->
  reconnectionTimeout w' = reconnectionTimeout w ->
  allocated w -> allocated w'.
Proof. intros N T H [A B]. split; rewrite ?N, ?T, ?H; assumption. Qed.

Lemma allocated_filter (keep : Timeout -> bool) w :
  allocated w -> allocated (with_timers (filter keep (timers w)) w).
Proof.
  intros [A B]. split; [exact A|]. intros t I. simpl in I.
  apply filter_In in I. now apply B.
Qed.

Lemma carries_refl w : carries w w.
Proof. now intros A. Qed.

Lemma carries_trans w1 w2 w3 : carries w1 w2 -> carries w2 w3 -> carries w1 w3.
Proof. unfold carries. auto. Qed.

Ltac same := intros ?; apply grows_same; reflexivity.
Ltac carried := intros ?; unfold carries; apply allocated_same; reflexivity.

Create HintDb timers.
Create HintDb handles.

Ltac grows_frame :=
  repeat first [ solve [auto with timers nocore]
               | related_step grows_refl grows_trans same ].
Ltac carries_frame :=
  repeat first [ solve [auto with handles nocore]
               | related_step carries_refl carries_trans carried ].

(** *** Lists and strings *)

Lemma nth_error_modify_nth {A} (f : A -> A) (l : list A) i j :
  nth_error (modify_nth i f l) j =
    if Nat.eqb i j then option_map f (nth_error l j) else nth_error l j.
Proof.
  revert i j. induction l as [|x l IH]; intros [|i] [|j]; simpl; try reflexivity.
  - now destruct (Nat.eqb i j).
  - apply IH.
Qed.

Lemma length_modify_nth {A} (f : A -> A) (l : list A) i :
  List.length (modify_nth i f l) = List.length l.
Proof.
  revert i. induction l as [|x l IH]; intros [|i]; simpl; try reflexivity.
  now rewrite IH.
Qed.

Lemma modify_nth_idem {A} (f : A -> A) (l : list A) i :
  (forall x, f (f x) = f x) -> modify_nth i f (modify_nth i f l) = modify_nth i f l.
Proof.
  intros F. revert i. induction l as [|x l IH]; intros [|i]; simpl; try reflexivity.
  - now rewrite F.
  - now rewrite IH.
Qed.

Lemma filter_idem {A} (f : A -> bool) (l : list A) : filter f (filter f l) = filter f l.
Proof.
  induction l as [|x l IH]; simpl; [reflexivity|].
  destruct (f x) eqn:E; simpl; rewrite ?E, IH; reflexivity.
Qed.

Lemma substring_all s : substring 0 (String.length s) s = s.
Proof. induction s as [|c s IH]; simpl; [reflexivity | now rewrite IH]. Qed.

Lemma prefix_split p h :
  String.prefix p h = true ->
  h = p ++ substring (String.length p) (String.length h - String.length p) h.
Proof.
  revert h. induction p as [|c p IH]; intros h P; simpl.
  - rewrite Nat.sub_0_r. now rewrite substring_all.
  - destruct h as [|c' h]; [discriminate P|]. simpl in P.
    destruct (Ascii.ascii_dec c c') as [<-|]; [|discriminate P].
    simpl. f_equal. now apply IH.
Qed.

Section Properties.

Context {R : Runtime}.

(** *** The reconnect flag *)

Lemma flag_call c : keeps shouldReconnect (call c).
Proof. now intros w. Qed.

Lemma flag_clearTimeout t : keeps shouldReconnect (clearTimeout t).
Proof. destruct t; now intros w. Qed.

Lemma flag_setTimeout d : keeps shouldReconnect (setTimeout d).
Proof. now intros w. Qed.

Lemma flag_new_Websocket a : keeps shouldReconnect (new_Websocket a).
Proof. intros w. unfold new_Websocket. now destruct (address_accepted a). Qed.

Lemma flag_Websocket_close i : keeps shouldReconnect (Websocket_close i).
Proof. now intros w. Qed.

Lemma flag_Websocket_send i m : keeps shouldReconnect (Websocket_send i m).
Proof. now intros w. Qed.

Lemma flag_set_states v : keeps shouldReconnect (set_states v).
Proof. now intros w. Qed.

Lemma flag_set_events v : keeps shouldReconnect (set_events v).
Proof. now intros w. Qed.

#[local] Hint Resolve flag_call flag_clearTimeout flag_setTimeout flag_new_Websocket
  flag_Websocket_close flag_Websocket_send flag_set_states flag_set_events : frame.

Lemma flag_connect : keeps shouldReconnect connect.
Proof. unfold connect. frame. Qed.

#[local] Hint Resolve flag_connect : frame.

Lemma flag_onopen : keeps shouldReconnect onopen.
Proof. unfold onopen. frame. Qed.

Lemma flag_onclose code : keeps shouldReconnect (onclose code).
Proof. unfold onclose. frame. Qed.

Lemma flag_onerror data : keeps shouldReconnect (onerror data).
Proof. unfold onerror. frame. Qed.

Lemma flag_reconnect_check : keeps shouldReconnect reconnect_check.
Proof. unfold reconnect_check. frame. Qed.

Lemma flag_socketSend m : keeps shouldReconnect (socketSend m).
Proof. unfold socketSend. frame. Qed.

Lemma flag_initEvents_start a : keeps shouldReconnect (initEvents_start a).
Proof. unfold initEvents_start. frame. Qed.

#[local] Hint Resolve flag_initEvents_start : frame.

Lemma flag_initEvents_resume r : keeps shouldReconnect (initEvents_resume r).
Proof. unfold initEvents_resume. frame. Qed.

Lemma flag_settle a r : keeps shouldReconnect (settle a r).
Proof.
  intros w. unfold settle. pose proof (flag_initEvents_resume r w) as E.
  destruct (initEvents_resume r w) as [[[]|e] w']; destruct a; exact E.
Qed.

Lemma flag_onmessage d : keeps shouldReconnect (onmessage d).
Proof.
  unfold onmessage, onmessage_try, ontime_branch, publish, refetch_branch,
    states_read, states_field.
  frame.
Qed.

Lemma disconnectSocket_disables w : shouldReconnect (run disconnectSocket w) = false.
Proof.
  unfold run, disconnectSocket.
  erewrite bind_normal by reflexivity. cbv beta.
  assert (keeps shouldReconnect
            (t <- gets reconnectionTimeout;;
             match t with Some _ => clearTimeout t | None => ret tt end;;
             cur <- gets ws;;
             match cur with Some i => Websocket_close i | None => ret tt end)) as K
    by frame.
  now rewrite K.
Qed.

(** [shouldReconnect] after one turn of the loop. *)
Lemma step_shouldReconnect e w :
  shouldReconnect (step e w) =
    match e with
    | Call_disconnectSocket => false
    | _ => shouldReconnect w
    end.
Proof.
  destruct e; unfold step.
  - apply flag_connect.
  - apply disconnectSocket_disables.
  - apply flag_socketSend.
  - apply flag_socketSend.
  - apply flag_initEvents_start.
  - destruct (readyState_of w i) as [[]|]; try reflexivity.
    unfold run. now rewrite flag_onopen.
  - destruct (readyState_of w i) as [[]|]; try reflexivity;
      unfold run; now rewrite flag_onclose.
  - destruct (readyState_of w i) as [[]|]; try reflexivity;
      unfold run; now rewrite flag_onerror.
  - destruct (readyState_of w i) as [[]|]; try reflexivity;
      unfold run; now rewrite flag_onmessage.
  - destruct (pending h w); [|reflexivity].
    unfold run. now rewrite flag_reconnect_check.
  - destruct (nth_error (requests w) k); [|reflexivity].
    unfold run. now rewrite flag_settle.
Qed.

Lemma steps_keep_disabled es w :
  shouldReconnect w = false -> shouldReconnect (steps es w) = false.
Proof.
  revert w. induction es as [|e es IH]; intros w F; [exact F|].
  apply IH. rewrite step_shouldReconnect. now destruct e.
Qed.

Lemma steps_app es1 es2 w : steps (es1 ++ es2) w = steps es2 (steps es1 w).
Proof. apply fold_left_app. Qed.

(** A close event with reconnection disabled sets no timer. *)
Lemma close_event_disabled i code w :
  shouldReconnect w = false ->
  timers (step (Socket_close i code) w) = timers w /\
  reconnectionTimeout (step (Socket_close i code) w) = reconnectionTimeout w /\
  next_handle (step (Socket_close i code) w) = next_handle w.
Proof.
  intros F. unfold step.
  destruct (readyState_of w i) as [[]|]; try (repeat split; reflexivity);
    unfold run, onclose, bind, call, modify, gets, set_readyState; simpl;
    rewrite F; repeat split; reflexivity.
Qed.

(** X8.  A close event on a socket that is not closed yet, with
    reconnection enabled, sets one timer, with the fixed delay, and
    records its handle. *)
Lemma close_event_enabled i code w :
  shouldReconnect w = true ->
  (exists r, readyState_of w i = Some r /\ r <> CLOSED) ->
  timers (step (Socket_close i code) w) =
    (timers w ++ [mkTimeout (next_handle w) reconnectInterval])%list /\
  reconnectionTimeout (step (Socket_close i code) w) = Some (next_handle w).
Proof.
  intros F (r & E & N). unfold step. rewrite E.
  destruct r; try (now elim N);
    unfold run, onclose, bind, call, modify, gets, setTimeout, set_readyState; simpl;
    rewrite F; split; reflexivity.
Qed.

(** [disconnectSocket] clears the timer whose handle is recorded; the
    loop then has no such timer to fire. *)
Lemma disconnectSocket_clears_recorded h w :
  reconnectionTimeout w = Some h ->
  pending h (run disconnectSocket w) = false /\
  forall w', pending h w' = false -> step (Timer_fires h) w' = w'.
Proof.
  intros E. split.
  - unfold run, disconnectSocket, bind, modify, gets, clearTimeout, Websocket_close, ret.
    simpl. rewrite E. simpl.
    assert (forall l, existsb (fun t => Nat.eqb (handle t) h)
                        (filter (fun x => negb (Nat.eqb (handle x) h)) l) = false) as Gone.
    { induction l as [|t l IH]; [reflexivity|]. simpl.
      destruct (Nat.eqb (handle t) h) eqn:T; simpl; [exact IH|]. now rewrite T. }
    destruct (ws w); unfold pending; simpl; apply Gone.
  - intros w' P. unfold step. now rewrite P.
Qed.

(** *** The message handler *)










(** *** The event directory *)

Lemma event_record_entry evt :
  Js.nullish evt = false -> event_record evt = Normal (directory_entry evt).
Proof.
  intros N. unfold event_record, directory_entry.
  now rewrite !(get_prop_field _ _ N).
Qed.

Lemma map_throwing_entries l :
  Forall (fun evt => Js.nullish evt = false) l ->
  map_throwing event_record l = Normal (map directory_entry l).
Proof.
  induction 1 as [|evt l N _ IH]; simpl; [reflexivity|].
  now rewrite (event_record_entry _ N), IH.
Qed.

(** A response that is not an array ends in the [catch]. *)
Lemma initEvents_not_an_array (body : string) (w : World) :
  initEvents_resume (Fulfilled (JStr body)) w =
    (Normal tt,
     failed (TypeError "map is not a function") (called (fetched (String.length body)) w)).
Proof. reflexivity. Qed.

(** *** Timers over the loop *)

Lemma grows_call c : respects grows (call c).
Proof. same. Qed.

Lemma grows_set_states v : respects grows (set_states v).
Proof. same. Qed.

Lemma grows_set_events v : respects grows (set_events v).
Proof. same. Qed.

Lemma grows_new_Websocket a : respects grows (new_Websocket a).
Proof.
  intros w. unfold new_Websocket.
  destruct (address_accepted a); apply grows_same; reflexivity.
Qed.

Lemma grows_Websocket_close i : respects grows (Websocket_close i).
Proof. same. Qed.

Lemma grows_Websocket_send i m : respects grows (Websocket_send i m).
Proof. same. Qed.

Lemma grows_clearTimeout t : respects grows (clearTimeout t).
Proof.
  destruct t as [h|]; [|apply (respects_ret grows grows_refl)].
  intros w. apply filter_grows.
Qed.

Lemma grows_setTimeout d : respects grows (setTimeout d).
Proof.
  intros w. split; [simpl; lia|]. intros t I. simpl in I.
  apply in_app_or in I as [I|[<-|[]]]; [now left | right; simpl; lia].
Qed.

#[local] Hint Resolve grows_call grows_set_states grows_set_events grows_new_Websocket
  grows_Websocket_close grows_Websocket_send grows_clearTimeout grows_setTimeout : timers.

Lemma grows_connect : respects grows connect.
Proof. unfold connect. grows_frame. Qed.
#[local] Hint Resolve grows_connect : timers.

Lemma grows_onopen : respects grows onopen.
Proof. unfold onopen. grows_frame. Qed.

Lemma grows_onclose code : respects grows (onclose code).
Proof. unfold onclose. grows_frame. Qed.

Lemma grows_onerror data : respects grows (onerror data).
Proof. unfold onerror. grows_frame. Qed.

Lemma grows_reconnect_check : respects grows reconnect_check.
Proof. unfold reconnect_check. grows_frame. Qed.

Lemma grows_disconnectSocket : respects grows disconnectSocket.
Proof. unfold disconnectSocket. grows_frame. Qed.

Lemma grows_socketSend m : respects grows (socketSend m).
Proof. unfold socketSend. grows_frame. Qed.

Lemma grows_initEvents_start a : respects grows (initEvents_start a).
Proof. unfold initEvents_start. grows_frame. Qed.
#[local] Hint Resolve grows_initEvents_start : timers.

Lemma grows_initEvents_resume r : respects grows (initEvents_resume r).
Proof. unfold initEvents_resume. grows_frame. Qed.

Lemma grows_settle a r : respects grows (settle a r).
Proof.
  intros w. unfold settle. pose proof (grows_initEvents_resume r w) as E.
  destruct (initEvents_resume r w) as [[[]|e] w']; destruct a; exact E.
Qed.

Lemma grows_onmessage d : respects grows (onmessage d).
Proof.
  unfold onmessage, onmessage_try, ontime_branch, publish, refetch_branch,
    states_read, states_field.
  grows_frame.
Qed.

Lemma step_grows e w : grows w (step e w).
Proof.
  destruct e; unfold step, run.
  - apply grows_connect.
  - apply grows_disconnectSocket.
  - apply grows_socketSend.
  - apply grows_socketSend.
  - apply grows_initEvents_start.
  - destruct (readyState_of w i) as [[]|]; try apply grows_refl.
    eapply grows_trans; [|apply grows_onopen]. now apply grows_same.
  - destruct (readyState_of w i) as [[]|]; try apply grows_refl;
      (eapply grows_trans; [|apply grows_onclose]); now apply grows_same.
  - destruct (readyState_of w i) as [[]|]; try apply grows_refl; apply grows_onerror.
  - destruct (readyState_of w i) as [[]|]; try apply grows_refl; apply grows_onmessage.
  - destruct (pending h w); [|apply grows_refl].
    eapply grows_trans; [apply filter_grows | apply grows_reconnect_check].
  - destruct (nth_error (requests w) k); [|apply grows_refl].
    eapply grows_trans; [|apply grows_settle]. now apply grows_same.
Qed.

Lemma steps_grow es w : grows w (steps es w).
Proof.
  revert w. induction es as [|e es IH]; intros w; [apply grows_refl|].
  eapply grows_trans; [apply step_grows | apply IH].
Qed.

Lemma carries_call c : respects carries (call c).
Proof. carried. Qed.

Lemma carries_set_states v : respects carries (set_states v).
Proof. carried. Qed.

Lemma carries_set_events v : respects carries (set_events v).
Proof. carried. Qed.

Lemma carries_new_Websocket a : respects carries (new_Websocket a).
Proof.
  intros w. unfold carries, new_Websocket.
  destruct (address_accepted a); apply allocated_same; reflexivity.
Qed.

Lemma carries_Websocket_close i : respects carries (Websocket_close i).
Proof. carried. Qed.

Lemma carries_Websocket_send i m : respects carries (Websocket_send i m).
Proof. carried. Qed.

Lemma carries_clearTimeout t : respects carries (clearTimeout t).
Proof.
  destruct t as [h|]; [|apply (respects_ret carries carries_refl)].
  intros w. unfold carries. apply allocated_filter.
Qed.

#[local] Hint Resolve carries_call carries_set_states carries_set_events
  carries_new_Websocket carries_Websocket_close carries_Websocket_send
  carries_clearTimeout : handles.

Lemma carries_connect : respects carries connect.
Proof. unfold connect. carries_frame. Qed.
#[local] Hint Resolve carries_connect : handles.

Lemma carries_onopen : respects carries onopen.
Proof. unfold onopen. carries_frame. Qed.

Lemma carries_onclose code : respects carries (onclose code).
Proof.
  intros w [A B]. unfold onclose, bind, call, modify, gets, setTimeout, ret. simpl.
  destruct (shouldReconnect w); simpl; [|now split].
  split; simpl.
  - intros h [= <-]. lia.
  - intros t I. apply in_app_or in I as [I|[<-|[]]]; [|simpl; lia].
    specialize (B t I). lia.
Qed.

Lemma carries_onerror data : respects carries (onerror data).
Proof. unfold onerror. carries_frame. Qed.

Lemma carries_reconnect_check : respects carries reconnect_check.
Proof. unfold reconnect_check. carries_frame. Qed.

Lemma carries_disconnectSocket : respects carries disconnectSocket.
Proof. unfold disconnectSocket. carries_frame. Qed.

Lemma carries_socketSend m : respects carries (socketSend m).
Proof. unfold socketSend. carries_frame. Qed.

Lemma carries_initEvents_start a : respects carries (initEvents_start a).
Proof. unfold initEvents_start. carries_frame. Qed.
#[local] Hint Resolve carries_initEvents_start : handles.

Lemma carries_initEvents_resume r : respects carries (initEvents_resume r).
Proof. unfold initEvents_resume. carries_frame. Qed.

Lemma carries_settle a r : respects carries (settle a r).
Proof.
  intros w. unfold settle. pose proof (carries_initEvents_resume r w) as E.
  destruct (initEvents_resume r w) as [[[]|e] w']; destruct a; exact E.
Qed.

Lemma carries_onmessage d : respects carries (onmessage d).
Proof.
  unfold onmessage, onmessage_try, ontime_branch, publish, refetch_branch,
    states_read, states_field.
  carries_frame.
Qed.

Lemma step_carries e w : carries w (step e w).
Proof.
  destruct e; unfold step, run.
  - apply carries_connect.
  - apply carries_disconnectSocket.
  - apply carries_socketSend.
  - apply carries_socketSend.
  - apply carries_initEvents_start.
  - destruct (readyState_of w i) as [[]|]; try apply carries_refl.
    eapply carries_trans; [|apply carries_onopen]. unfold carries. now apply allocated_same.
  - destruct (readyState_of w i) as [[]|]; try apply carries_refl;
      (eapply carries_trans; [|apply carries_onclose]); unfold carries;
      now apply allocated_same.
  - destruct (readyState_of w i) as [[]|]; try apply carries_refl; apply carries_onerror.
  - destruct (readyState_of w i) as [[]|]; try apply carries_refl; apply carries_onmessage.
  - destruct (pending h w); [|apply carries_refl].
    eapply carries_trans; [unfold carries; apply allocated_filter | apply carries_reconnect_check].
  - destruct (nth_error (requests w) k); [|apply carries_refl].
    eapply carries_trans; [|apply carries_settle]. unfold carries. now apply allocated_same.
Qed.

Lemma reachable_allocated cfg es : allocated (steps es (initial cfg)).
Proof.
  assert (forall w, allocated w -> allocated (steps es w)) as G.
  { induction es as [|e es IH]; intros w A; [exact A|].
    apply IH. now apply step_carries. }
  apply G. split; [discriminate | intros t []].
Qed.

(** X12.  In a world the loop can reach, the timer whose handle is
    recorded when [disconnectSocket] is called is cleared and is never
    pending again, whatever happens next, so it never fires. *)
Lemma recorded_timer_never_fires cfg (before after : list Event) h :
  let w := steps before (initial cfg) in
  reconnectionTimeout w = Some h ->
  let w' := steps (Call_disconnectSocket :: after) w in
  pending h w' = false /\ step (Timer_fires h) w' = w'.
Proof.
  intros w E w'.
  assert (pending h w' = false) as P.
  { subst w'. simpl.
    destruct (disconnectSocket_clears_recorded h w E) as [P _].
    apply (grows_pending h _ _ (steps_grow after _)); [|exact P].
    destruct (reachable_allocated cfg before) as [A _].
    pose proof (grows_disconnectSocket w) as [L _].
    specialize (A h E). fold w in A. unfold run. lia. }
  split; [exact P|]. unfold step. now rewrite P.
Qed.

Lemma map_throwing_all l :
  all_present l = true -> map_throwing event_record l = Normal (map directory_entry l).
Proof.
  intros A. apply map_throwing_entries. apply Forall_forall. intros evt I.
  unfold all_present in A. rewrite forallb_forall in A.
  specialize (A evt I). now destruct (Js.nullish evt).
Qed.

Lemma map_throwing_some_null l :
  all_present l = false -> exists e, map_throwing event_record l = Throw e.
Proof.
  induction l as [|evt l IH]; [discriminate|]. simpl. intros A.
  destruct (Js.nullish evt) eqn:N.
  - unfold event_record. rewrite (get_prop_nullish _ _ N). simpl. eauto.
  - rewrite (event_record_entry _ N). simpl. simpl in A.
    destruct (IH A) as [e ->]. simpl. eauto.
Qed.

(** *** [connect] as a whole *)

Lemma connect_eq w :
  host_truthy (host (config (self w))) = true ->
  Js.truthy (port (config (self w))) = true ->
  connect w =
    if address_accepted (reconnect_address w) then (Normal tt, connect_done w)
    else (Throw SyntaxError, connect_attempted w).
Proof.
  intros Hh Hp. unfold connect.
  erewrite bind_normal by reflexivity. cbv beta zeta.
  rewrite Hh, Hp. change (negb true || negb true) with false. cbv iota.
  unfold connect_done, connect_attempted, reconnect_address.
  destruct (ws w) as [i|] eqn:W;
    destruct (pattern_test (host_text (host (config (self w)))));
    unfold Websocket_close, new_Websocket, call, called, bind, modify, gets, ret;
    cbn [fst snd ws sockets self config with_self with_calls with_sockets with_ws];
    rewrite ?W; cbn [fst snd ws sockets self config with_self with_calls with_sockets with_ws];
    destruct (address_accepted _); rewrite ?length_modify_nth; reflexivity.
Qed.

Lemma connect_world w :
  host_truthy (host (config (self w))) = true ->
  Js.truthy (port (config (self w))) = true ->
  address_accepted (reconnect_address w) = true ->
  run connect w = connect_done w.
Proof. intros Hh Hp A. unfold run. now rewrite (connect_eq w Hh Hp), A. Qed.

Lemma connect_rejected_world w :
  host_truthy (host (config (self w))) = true ->
  Js.truthy (port (config (self w))) = true ->
  address_accepted (reconnect_address w) = false ->
  run connect w = connect_attempted w.
Proof. intros Hh Hp A. unfold run. now rewrite (connect_eq w Hh Hp), A. Qed.

Lemma connect_noop_world w :
  host_truthy (host (config (self w))) && Js.truthy (port (config (self w))) = false ->
  run connect w = called (updateStatus BadConfig (Some "no host and/or port defined")) w.
Proof.
  intros F. unfold run, connect.
  erewrite bind_normal by reflexivity. cbv beta zeta.
  destruct (host_truthy _), (Js.truthy _); try discriminate F; reflexivity.
Qed.

(** A timer that fires while the current socket is closed runs [connect]. *)
Lemma timer_fires_connects h i w :
  pending h w = true -> ws w = Some i -> readyState_of w i = Some CLOSED ->
  step (Timer_fires h) w = run connect (without_timer h w).
Proof.
  intros P W C. unfold step. rewrite P. fold (without_timer h w).
  unfold run at 1. unfold reconnect_check, bind, gets. simpl.
  rewrite W. change (readyState_of (without_timer h w) i) with (readyState_of w i).
  now rewrite C.
Qed.

(** In a concrete world: [connect], with the address taken, by its result. *)
Ltac connect_now A :=
  match goal with
  | |- context [run connect ?w] =>
      let E := fresh "E" in
      pose proof (connect_world w eq_refl eq_refl A) as E;
      let rhs := eval vm_compute in (connect_done w) in
      change (connect_done w) with rhs in E;
      rewrite E; clear E
  end.

(** *** Main results *)

(** C1.  With the host configured as [http://localhost] and port 4001 the
    pattern matches and [replace] computes [localhost], but the address
    handed to the constructor is built from the host as configured,
    scheme included.  The constructor taking that address, the socket
    [connect] opens is the current one and has that address; and in
    every case the sockets are not one socket at
    [ws://localhost:4001/ws]. *)
Theorem connect_keeps_scheme :
  let w := run connect (initial schemed_config) in
  pattern_test "http://localhost" = true /\
  pattern_replace "http://localhost" = "localhost" /\
  reconnect_address (initial schemed_config) = "ws://http://localhost:4001/ws" /\
  (address_accepted "ws://http://localhost:4001/ws" = true ->
   ws w = Some 0%nat /\
   map address (sockets w) = ["ws://http://localhost:4001/ws"]) /\
  map address (sockets w) <> ["ws://localhost:4001/ws"].
Proof.
  cbv zeta. do 3 (split; [reflexivity|]). split.
  - intros A. connect_now A. split; reflexivity.
  - destruct (address_accepted "ws://http://localhost:4001/ws") eqn:A.
    + connect_now A. discriminate.
    + rewrite (connect_rejected_world (initial schemed_config) eq_refl eq_refl A).
      discriminate.
Qed.

(** C2.  Two close events with reconnection enabled set two timers, and
    only the handle of the second is recorded.  [disconnectSocket] clears
    that one; the first is still pending, and when it fires the socket is
    closed, so [connect] runs and opens a third socket (the address
    being one the constructor takes). *)
Theorem stale_timer_reconnects :
  address_accepted "ws://localhost:4001/ws" = true ->
  let w := steps overlapping_closes (initial example_config) in
  let w' := step (Timer_fires 0) w in
  shouldReconnect w = false /\
  reconnectionTimeout w = Some 1%nat /\
  timers w = [mkTimeout 0 reconnectInterval] /\
  map readyState (sockets w) = [CLOSED; CLOSED] /\
  ws w' = Some 2%nat /\
  map (fun s => (address s, readyState s)) (sockets w') =
    [ ("ws://localhost:4001/ws", CLOSED); ("ws://localhost:4001/ws", CLOSED);
      ("ws://localhost:4001/ws", CONNECTING) ] /\
  hd_error (calls (self w')) = Some (updateStatus Connecting None).
Proof.
  intros A. cbv zeta. unfold overlapping_closes, steps. cbn [fold_left].
  change (step Call_connect) with (run connect).
  do 2 connect_now A.
  match goal with
  | |- context [step Call_disconnectSocket ?x] =>
      let rhs := eval vm_compute in (step Call_disconnectSocket x) in
      change (step Call_disconnectSocket x) with rhs
  end.
  rewrite (timer_fires_connects 0 1) by reflexivity.
  connect_now A.
  repeat split; reflexivity.
Qed.


(** C4.  A frame whose data is not JSON: [JSON.parse] throws, the [catch]
    swallows it, the handler completes and the world (the stored state,
    the calls into the host, hence the published variables, and the event
    directory among the rest) is what it was. *)
Theorem onmessage_invalid_json (event_data : string) (w : World) :
  JSON_parse event_data = None ->
  onmessage event_data w = (Normal tt, w).
Proof.
  intros E. unfold onmessage, try_catch, onmessage_try.
  erewrite bind_throw; [reflexivity|].
  unfold lift. now rewrite E.
Qed.

(** C5 (amended).  When the request does not bring an array of elements
    (it is rejected, or fulfilled with a body that is not an array:
    [null], a boolean, a number, a string, an object; and also with an
    array that holds a [null]), [initEvents] completes (its promise is
    not rejected), logs the two error lines, the second with what was
    thrown, and leaves the event directory as it was: empty when it was
    empty, as right after the refetch branch cleared it.  The part of
    [initEvents] before the request does not throw and does not touch
    the directory either. *)
Theorem initEvents_failure (r : Response) (a : Awaiter) (w : World) :
  (forall l, r = Fulfilled (JArr l) -> all_present l = false) ->
  let w' := run (initEvents_resume r) w in
  fst (initEvents_resume r w) = Normal tt /\
  events (self w') = events (self w) /\
  (events (self w) = JArr [] -> events (self w') = JArr []) /\
  (exists e earlier,
     calls (self w') =
       log "error" (Caught e) ::
       log "error" (Text "failed to fetch events from ontime") ::
       (earlier ++ calls (self w))%list /\
     (earlier = [] \/ exists line, earlier = [log "debug" (Text line)])) /\
  (forall e, r = Rejected e -> initEvents_resume r w = (Normal tt, failed e w)) /\
  states (self w') = states (self w) /\
  fst (initEvents_start a w) = Normal tt /\
  events (self (run (initEvents_start a) w)) = events (self w).
Proof.
  intros H. cbv zeta.
  assert (exists e w1 earlier,
            initEvents_resume r w = (Normal tt, failed e w1) /\
            events (self w1) = events (self w) /\
            states (self w1) = states (self w) /\
            calls (self w1) = (earlier ++ calls (self w))%list /\
            (earlier = [] \/ exists line, earlier = [log "debug" (Text line)])) as G.
  { destruct r as [data|e].
    - destruct data as [| |b|n|ng tx|s0|elems|props];
        try (eexists; eexists;
             first [ exists []; split; [reflexivity|];
                     repeat split; try reflexivity; left; reflexivity
                   | eexists [log "debug" (Text _)]; split; [reflexivity|];
                     repeat split; try reflexivity; right; eexists; reflexivity ]).
      destruct (map_throwing_some_null elems (H elems eq_refl)) as [e E].
      exists e. eexists. exists [fetched (List.length elems)]. split.
      + unfold initEvents_resume, try_catch.
        do 3 (erewrite bind_normal by reflexivity; cbv beta).
        erewrite bind_throw by (unfold lift, Array_map; rewrite E; reflexivity).
        reflexivity.
      + repeat split; try reflexivity. right. eexists. reflexivity.
    - exists e, w, []. repeat split; try reflexivity. now left. }
  assert (forall e, r = Rejected e -> initEvents_resume r w = (Normal tt, failed e w))
    as Rj by (intros e ->; reflexivity).
  destruct G as (e & w1 & earlier & E & Ev & St & Ca & Sh).
  unfold run. rewrite E in *. simpl fst. simpl snd.
  split; [reflexivity|]. split; [exact Ev|]. split; [intros Z; now rewrite <- Z|].
  split.
  { exists e, earlier. split; [|exact Sh]. simpl. now rewrite Ca. }
  split; [exact Rj|]. split; [exact St|]. split; reflexivity.
Qed.

(** C6.  A frame that parses to a message whose [type] is absent, falsy,
    or neither ["ontime"] nor ["ontime-refetch"]: the handler completes
    and the world is what it was, so no variable is set, no feedback is
    checked, and the stored state and the event directory are unchanged. *)
Theorem onmessage_other_type (event_data : string) (msg : jsval) (w : World) :
  JSON_parse event_data = Some msg ->
  message_type msg <> JStr "ontime" ->
  message_type msg <> JStr "ontime-refetch" ->
  onmessage event_data w = (Normal tt, w).
Proof.
  intros E N1 N2. unfold onmessage, try_catch, onmessage_try.
  erewrite bind_normal by (unfold lift; rewrite E; reflexivity). cbv beta.
  unfold message_type, field in N1, N2.
  destruct (Js.get_prop msg "type") as [t|e] eqn:T.
  - erewrite bind_normal by reflexivity. cbv beta.
    erewrite bind_normal
      by (unfold lift; rewrite (get_prop_field _ _ (get_prop_normal _ _ _ T)); reflexivity).
    cbv beta.
    destruct (Js.truthy t); simpl; [|reflexivity].
    rewrite (strict_eq_str_false _ _ N1), (strict_eq_str_false _ _ N2).
    reflexivity.
  - erewrite bind_throw; reflexivity.
Qed.

(** C7.  [connect] with the host or the port missing: the one effect is
    the status call, no socket is created, and the call returns. *)
Theorem connect_bad_config (w : World) :
  host_truthy (host (config (self w))) = false \/
  Js.truthy (port (config (self w))) = false ->
  connect w =
    (Normal tt, called (updateStatus BadConfig (Some "no host and/or port defined")) w).
Proof.
  intros Hf. unfold connect.
  erewrite bind_normal by reflexivity. cbv beta zeta.
  destruct Hf as [-> | ->]; [reflexivity|].
  now rewrite orb_true_r.
Qed.

(** C8 (amended).  When the request is fulfilled with an array none of
    whose elements is [null], [initEvents] completes and the event
    directory is the array of the entries [{id, label}] of the elements,
    in order, whatever it was before; the one call into the host is the
    log line with the number of elements. *)
Theorem initEvents_success (l : list jsval) (w : World) :
  Forall (fun evt => Js.nullish evt = false) l ->
  let w' := run (initEvents_resume (Fulfilled (JArr l))) w in
  fst (initEvents_resume (Fulfilled (JArr l)) w) = Normal tt /\
  events (self w') = JArr (map directory_entry l) /\
  calls (self w') = fetched (List.length l) :: calls (self w).
Proof.
  intros F. cbv zeta. unfold run, initEvents_resume, try_catch.
  do 3 (erewrite bind_normal by reflexivity; cbv beta).
  erewrite bind_normal
    by (unfold lift, Array_map; rewrite (map_throwing_entries _ F); reflexivity).
  repeat split; reflexivity.
Qed.


(** C10.  [shouldReconnect] starts [true]; a turn of the loop leaves it
    as it is, except a call of [disconnectSocket], which sets it [false];
    so once [disconnectSocket] has been called, whatever happened before
    and whatever happens after, the flag is [false] and a close event
    sets no timer. *)
Theorem shouldReconnect_one_way (cfg : Config) (before after : list Event) :
  shouldReconnect (initial cfg) = true /\
  (forall e w, shouldReconnect (step e w) =
               match e with
               | Call_disconnectSocket => false
               | _ => shouldReconnect w
               end) /\
  let w := steps (before ++ Call_disconnectSocket :: after) (initial cfg) in
  shouldReconnect w = false /\
  forall i code,
    timers (step (Socket_close i code) w) = timers w /\
    reconnectionTimeout (step (Socket_close i code) w) = reconnectionTimeout w.
Proof.
  split; [reflexivity|]. split; [apply step_shouldReconnect|].
  cbv zeta.
  assert (shouldReconnect (steps (before ++ Call_disconnectSocket :: after) (initial cfg))
          = false) as F.
  { rewrite steps_app. simpl. apply steps_keep_disabled. apply disconnectSocket_disables. }
  split; [exact F|]. intros i code.
  destruct (close_event_disabled i code _ F) as (T & H & _). now split.
Qed.

End Properties.

(** ** The rest of the module's behaviour *)

Section Behaviour.

Context {R : Runtime}.

Lemma socketSend_not_open (message : string) (w : World) :
  (forall i, ws w = Some i -> readyState_of w i <> Some OPEN) ->
  socketSend message w = (Normal tt, w).
Proof.
  intros N. unfold socketSend, bind, gets. simpl.
  destruct (ws w) as [i|]; [|reflexivity].
  specialize (N i eq_refl).
  destruct (readyState_of w i) as [[]|]; try reflexivity. now elim N.
Qed.

(** X1.  With no current socket, or a current socket that is not open,
    [socketSend] and [socketSendJson] complete and change nothing: the
    message is dropped, not queued. *)
Theorem socketSend_dropped (message type : string) (payload : jsval) (w : World) :
  (forall i, ws w = Some i -> readyState_of w i <> Some OPEN) ->
  socketSend message w = (Normal tt, w) /\
  socketSendJson type payload w = (Normal tt, w).
Proof. intros N. split; now apply socketSend_not_open. Qed.

(** X2.  With the current socket open, [socketSend] hands the message to
    that socket and touches nothing else: the other sockets, the host
    instance, the timers and the flag are as before. *)
Theorem socketSend_delivered (message : string) (i : nat) (s : Websocket) (w : World) :
  ws w = Some i ->
  nth_error (sockets w) i = Some s ->
  readyState s = OPEN ->
  let w' := run (socketSend message) w in
  nth_error (sockets w') i = Some (mkWebsocket (address s) OPEN (message :: sent s)) /\
  (forall j, j <> i -> nth_error (sockets w') j = nth_error (sockets w) j) /\
  self w' = self w /\ ws w' = ws w /\ timers w' = timers w /\
  shouldReconnect w' = shouldReconnect w.
Proof.
  intros W S O. cbv zeta.
  assert (run (socketSend message) w =
          with_sockets
            (modify_nth i (fun s => mkWebsocket (address s) (readyState s) (message :: sent s))
               (sockets w)) w) as ->.
  { unfold run, socketSend, bind, gets. simpl.
    rewrite W. unfold readyState_of. rewrite S. simpl. now rewrite O. }
  simpl. split; [|split; [|repeat split; reflexivity]].
  - rewrite nth_error_modify_nth, Nat.eqb_refl, S. simpl. now rewrite O.
  - intros j N. rewrite nth_error_modify_nth.
    destruct (Nat.eqb i j) eqn:E; [|reflexivity].
    apply Nat.eqb_eq in E. congruence.
Qed.

Lemma close_state_idem s : close_state (close_state s) = close_state s.
Proof. unfold close_state. destruct s as [a [] o]; reflexivity. Qed.

Lemma disconnectSocket_world w :
  run disconnectSocket w =
    with_sockets
      (match ws w with
       | Some i => modify_nth i close_state (sockets w)
       | None => sockets w
       end)
      (with_timers
         (match reconnectionTimeout w with
          | Some h => filter (fun x => negb (Nat.eqb (handle x) h)) (timers w)
          | None => timers w
          end)
         (with_shouldReconnect false w)).
Proof.
  unfold run, disconnectSocket, bind, modify, gets, ret, clearTimeout, Websocket_close.
  simpl. destruct (reconnectionTimeout w); simpl; destruct (ws w); reflexivity.
Qed.

(** X3.  [disconnectSocket] completes and leaves the flag [false], the
    timers without the one whose handle is recorded, and the current
    socket with [close()] called on it, so neither connecting nor open;
    the other sockets are as before and nothing else is written.  A
    second call leaves the world the first one made. *)
Theorem disconnectSocket_idempotent (w : World) :
  let w' := run disconnectSocket w in
  fst (disconnectSocket w) = Normal tt /\
  w' =
    with_sockets
      (match ws w with
       | Some i => modify_nth i close_state (sockets w)
       | None => sockets w
       end)
      (with_timers
         (match reconnectionTimeout w with
          | Some h => filter (fun x => negb (Nat.eqb (handle x) h)) (timers w)
          | None => timers w
          end)
         (with_shouldReconnect false w)) /\
  shouldReconnect w' = false /\
  (forall h, reconnectionTimeout w = Some h -> pending h w' = false) /\
  (forall i s, ws w = Some i -> nth_error (sockets w) i = Some s ->
               nth_error (sockets w') i = Some (close_state s) /\
               is_live (close_state s) = false) /\
  (forall j, ws w <> Some j -> nth_error (sockets w') j = nth_error (sockets w) j) /\
  run disconnectSocket w' = w'.
Proof.
  cbv zeta. split.
  { unfold disconnectSocket, bind, modify, gets, ret, clearTimeout, Websocket_close.
    simpl. destruct (reconnectionTimeout w); simpl; destruct (ws w); reflexivity. }
  split; [apply disconnectSocket_world|].
  split; [now rewrite disconnectSocket_world|].
  split; [|split; [|split]].
  - intros h E. rewrite disconnectSocket_world, E. unfold pending. simpl.
    induction (timers w) as [|t l IH]; [reflexivity|]. simpl.
    destruct (Nat.eqb (handle t) h) eqn:T; simpl; [exact IH|]. now rewrite T.
  - intros i s W N. rewrite disconnectSocket_world, W. simpl.
    rewrite nth_error_modify_nth, Nat.eqb_refl, N. simpl.
    split; [reflexivity|]. destruct s as [a [] o]; reflexivity.
  - intros j W. rewrite disconnectSocket_world. simpl.
    destruct (ws w) as [i|]; [|reflexivity].
    rewrite nth_error_modify_nth. destruct (Nat.eqb i j) eqn:E; [|reflexivity].
    apply Nat.eqb_eq in E. congruence.
  - rewrite !disconnectSocket_world.
    unfold with_sockets, with_timers, with_shouldReconnect. simpl. f_equal.
    + destruct (ws w); [|reflexivity]. apply modify_nth_idem, close_state_idem.
    + destruct (reconnectionTimeout w); [|reflexivity]. apply filter_idem.
Qed.

Lemma socketSend_right_after_disconnect (message : string) (w : World) :
  socketSend message (run disconnectSocket w) = (Normal tt, run disconnectSocket w).
Proof.
  apply socketSend_not_open. intros i W. rewrite disconnectSocket_world in *.
  simpl in W. unfold readyState_of. simpl. rewrite W.
  rewrite nth_error_modify_nth, Nat.eqb_refl.
  destruct (nth_error (sockets w) i) as [[a [] o]|]; simpl; discriminate.
Qed.

Lemma keeps_settle {A} (f : World -> A) a r :
  keeps f (initEvents_resume r) -> keeps f (call init_actions) ->
  (forall e, keeps f (call (log "debug" (Caught e)))) -> keeps f (settle a r).
Proof.
  intros K1 K2 K3 w. unfold settle. specialize (K1 w).
  destruct (initEvents_resume r w) as [[[]|e] w']; destruct a; simpl in *;
    try exact K1.
  - rewrite <- K1. apply K2.
  - rewrite <- K1. apply K3.
Qed.

Lemma connection_onmessage d : keeps connection (onmessage d).
Proof. untouched. Qed.

Lemma connection_initEvents_start a : keeps connection (initEvents_start a).
Proof. untouched. Qed.

Lemma connection_settle a r : keeps connection (settle a r).
Proof. apply keeps_settle; [untouched | untouched | intros e; untouched]. Qed.

Lemma current_onopen : keeps current onopen.
Proof. untouched. Qed.

Lemma current_onclose code : keeps current (onclose code).
Proof. untouched. Qed.

Lemma current_onerror data : keeps current (onerror data).
Proof. untouched. Qed.

Lemma live_same w w' : current w' = current w -> live_is_current w -> live_is_current w'.
Proof.
  unfold current, live_is_current. intros [= W S] L j s. rewrite W, S. apply L.
Qed.

Lemma live_connection w w' :
  connection w' = connection w -> live_is_current w -> live_is_current w'.
Proof.
  unfold connection. intros [= W _ _ S _ _ _]. apply live_same. unfold current. congruence.
Qed.

Lemma is_live_close_state s : is_live (close_state s) = false.
Proof. destruct s as [a [] o]; reflexivity. Qed.

Lemma live_modify i f w :
  (forall s, is_live (f s) = true -> is_live s = true) ->
  live_is_current w -> live_is_current (with_sockets (modify_nth i f (sockets w)) w).
Proof.
  intros F L j s. simpl. rewrite nth_error_modify_nth.
  destruct (Nat.eqb i j); [|apply L].
  destruct (nth_error (sockets w) j) as [s0|] eqn:N; [|discriminate].
  intros [= <-] Lv. apply (L j s0 N). now apply F.
Qed.

Lemma live_connect w : live_is_current w -> live_is_current (run connect w).
Proof.
  intros L.
  destruct (host_truthy (host (config (self w))) && Js.truthy (port (config (self w))))
    eqn:V; [|rewrite (connect_noop_world w V); revert L; now apply live_same].
  apply andb_true_iff in V as [Hh Hp].
  destruct (address_accepted (reconnect_address w)) eqn:A.
  - rewrite (connect_world w Hh Hp A). unfold connect_done, connect_attempted.
    intros j s. simpl. intros N Lv.
    destruct (Nat.lt_ge_cases j (List.length (sockets w))) as [Lt|Ge].
    + exfalso. rewrite nth_error_app1 in N
        by (destruct (ws w); rewrite ?length_modify_nth; exact Lt).
      destruct (ws w) as [i|] eqn:W.
      * rewrite nth_error_modify_nth in N.
        destruct (Nat.eqb i j) eqn:E.
        -- destruct (nth_error (sockets w) j); [|discriminate N].
           injection N as <-. now rewrite is_live_close_state in Lv.
        -- specialize (L j s N Lv). rewrite W in L. injection L as ->.
           now rewrite Nat.eqb_refl in E.
      * specialize (L j s N Lv). rewrite W in L. discriminate L.
    + assert (List.length (match ws w with
                           | Some i => modify_nth i close_state (sockets w)
                           | None => sockets w
                           end) = List.length (sockets w)) as Len
        by (destruct (ws w); rewrite ?length_modify_nth; reflexivity).
      rewrite nth_error_app2 in N by lia. rewrite Len in N.
      destruct (j - List.length (sockets w))%nat as [|[|k]] eqn:D; simpl in N;
        try discriminate N.
      f_equal. lia.
  - rewrite (connect_rejected_world w Hh Hp A). unfold connect_attempted.
    destruct (ws w) as [i|] eqn:W.
    + assert (live_is_current (called (updateStatus Connecting None) w)) as L'
        by (revert L; now apply live_same).
      apply (live_modify i close_state) in L'; [exact L'|].
      intros s. now rewrite is_live_close_state.
    + revert L. apply live_same. unfold current. simpl. now rewrite W.
Qed.

Lemma live_open i w :
  readyState_of w i = Some CONNECTING ->
  live_is_current w -> live_is_current (set_readyState i OPEN w).
Proof.
  intros C L j s. unfold set_readyState. simpl. rewrite nth_error_modify_nth.
  destruct (Nat.eqb i j) eqn:E; [|apply L].
  apply Nat.eqb_eq in E. subst j. unfold readyState_of in C.
  destruct (nth_error (sockets w) i) as [s0|] eqn:N; [|discriminate].
  intros _ _. apply (L i s0 N). unfold is_live. simpl in C. injection C as ->. reflexivity.
Qed.

Lemma live_step e w : live_is_current w -> live_is_current (step e w).
Proof.
  intros L. destruct e; unfold step.
  - now apply live_connect.
  - rewrite disconnectSocket_world.
    destruct (ws w) as [i|] eqn:W.
    + assert (live_is_current
                (with_timers
                   match reconnectionTimeout w with
                   | Some h => filter (fun x => negb (Nat.eqb (handle x) h)) (timers w)
                   | None => timers w
                   end (with_shouldReconnect false w))) as L'
        by (revert L; now apply live_same).
      apply (live_modify i close_state) in L'; [exact L'|].
      intros s. now rewrite is_live_close_state.
    + revert L. apply live_same. unfold current. simpl. now rewrite W.
  - unfold run, socketSend, bind, gets. simpl.
    destruct (ws w) as [i|] eqn:W; [|exact L].
    destruct (readyState_of w i) as [[]|]; try exact L.
    apply (live_modify i); [|exact L]. now intros [a r o].
  - unfold run, socketSendJson, socketSend, bind, gets. simpl.
    destruct (ws w) as [i|] eqn:W; [|exact L].
    destruct (readyState_of w i) as [[]|]; try exact L.
    apply (live_modify i); [|exact L]. now intros [a r o].
  - revert L. apply live_connection, connection_initEvents_start.
  - destruct (readyState_of w i) as [[]|] eqn:S; try exact L.
    apply (live_open i w S) in L. revert L. apply live_same, current_onopen.
  - assert (live_is_current (set_readyState i CLOSED w)) as L'.
    { apply live_modify; [|exact L]. intros [a r o]. discriminate. }
    destruct (readyState_of w i) as [[]|]; try exact L;
      revert L'; apply live_same, current_onclose.
  - destruct (readyState_of w i) as [[]|]; try exact L;
      revert L; apply live_same, current_onerror.
  - destruct (readyState_of w i) as [[]|]; try exact L;
      revert L; apply live_connection, connection_onmessage.
  - destruct (pending h w); [|exact L].
    set (w1 := with_timers _ w).
    assert (live_is_current w1) as L1 by (revert L; now apply live_same).
    clearbody w1. unfold run, reconnect_check, bind, gets. simpl.
    destruct (ws w1) as [i|]; [|exact L1].
    destruct (readyState_of w1 i) as [[]|]; try exact L1.
    now apply live_connect.
  - destruct (nth_error (requests w) k); [|exact L].
    assert (live_is_current (with_requests (remove_nth k (requests w)) w)) as L'
      by (revert L; now apply live_same).
    revert L'. apply live_connection, connection_settle.
Qed.

Lemma reachable_live (cfg : Config) (es : list Event) :
  live_is_current (steps es (initial cfg)).
Proof.
  assert (forall w, live_is_current w -> live_is_current (steps es w)) as G.
  { induction es as [|e es IH]; intros w L; [exact L|].
    apply IH. now apply live_step. }
  apply G. intros [|j] s; discriminate.
Qed.

(** X5.  In every world the loop can reach, a socket that is connecting
    or open is the current one, so at most one socket is connecting or
    open at a time. *)
Theorem one_live_socket (cfg : Config) (es : list Event) :
  let w := steps es (initial cfg) in
  live_is_current w /\
  forall j1 j2 s1 s2,
    nth_error (sockets w) j1 = Some s1 -> is_live s1 = true ->
    nth_error (sockets w) j2 = Some s2 -> is_live s2 = true ->
    j1 = j2.
Proof.
  cbv zeta. pose proof (reachable_live cfg es) as L. split; [exact L|].
  intros j1 j2 s1 s2 N1 L1 N2 L2.
  pose proof (L j1 s1 N1 L1) as E1. pose proof (L j2 s2 N2 L2) as E2. congruence.
Qed.

(** X6.  In every world the loop can reach, right after
    [disconnectSocket] no socket the module created is connecting or
    open. *)
Theorem disconnect_leaves_no_live_socket (cfg : Config) (es : list Event) :
  Forall (fun s => is_live s = false)
    (sockets (steps (es ++ [Call_disconnectSocket]) (initial cfg))).
Proof.
  rewrite steps_app. simpl. set (w := steps es (initial cfg)).
  pose proof (reachable_live cfg es) as L. fold w in L.
  rewrite disconnectSocket_world. simpl.
  apply Forall_forall. intros s I. apply In_nth_error in I as [j N].
  destruct (is_live s) eqn:Lv; [|reflexivity]. exfalso.
  destruct (ws w) as [i|] eqn:W.
  - rewrite nth_error_modify_nth in N. destruct (Nat.eqb i j) eqn:E.
    + destruct (nth_error (sockets w) j); [|discriminate N].
      injection N as <-. now rewrite is_live_close_state in Lv.
    + specialize (L j s N Lv). rewrite W in L. injection L as ->.
      now rewrite Nat.eqb_refl in E.
  - specialize (L j s N Lv). rewrite W in L. discriminate L.
Qed.

Lemma pending_without h w : pending h (without_timer h w) = false.
Proof.
  unfold pending, without_timer. simpl.
  induction (timers w) as [|t l IH]; [reflexivity|]. simpl.
  destruct (Nat.eqb (handle t) h) eqn:T; simpl; [exact IH|]. now rewrite T.
Qed.

(** X10.  A timer that fires while there is no current socket, or while
    the current socket is not closed, is consumed and nothing else
    happens: no reconnect. *)
Theorem timer_guard (h : nat) (w : World) :
  pending h w = true ->
  (forall i, ws w = Some i -> readyState_of w i <> Some CLOSED) ->
  step (Timer_fires h) w = without_timer h w.
Proof.
  intros P N. unfold step. rewrite P.
  unfold run, reconnect_check, bind, gets. simpl.
  destruct (ws w) as [i|]; [|reflexivity].
  specialize (N i eq_refl). unfold readyState_of in *. simpl.
  destruct (option_map readyState (nth_error (sockets w) i)) as [[]|]; try reflexivity.
  now elim N.
Qed.

(** X9.  With reconnection enabled and host and port configured to an
    address the constructor takes, the close event of the current socket
    followed by the firing of the timer it set makes [connect] run: one
    new socket, connecting to the configured address, becomes the current
    one, and the timer is no longer pending. *)
Theorem close_then_timer_reconnects (i : nat) (r : ReadyState) (code : jsval) (w : World) :
  shouldReconnect w = true ->
  ws w = Some i ->
  readyState_of w i = Some r -> r <> CLOSED ->
  host_truthy (host (config (self w))) = true ->
  Js.truthy (port (config (self w))) = true ->
  address_accepted (reconnect_address w) = true ->
  let w1 := step (Socket_close i code) w in
  let w2 := step (Timer_fires (next_handle w)) w1 in
  pending (next_handle w) w1 = true /\
  readyState_of w1 i = Some CLOSED /\
  List.length (sockets w2) = S (List.length (sockets w)) /\
  ws w2 = Some (List.length (sockets w)) /\
  nth_error (sockets w2) (List.length (sockets w)) =
    Some (mkWebsocket (reconnect_address w) CONNECTING []) /\
  pending (next_handle w) w2 = false /\
  hd_error (calls (self w2)) = Some (updateStatus Connecting None).
Proof.
  intros F W Hs N Hh Hp A. cbv zeta.
  set (msg := "Connection closed with code " ++ Js.ToString code).
  assert (step (Socket_close i code) w =
          with_reconnectionTimeout (Some (next_handle w))
            (with_next_handle (S (next_handle w))
               (with_timers (timers w ++ [mkTimeout (next_handle w) reconnectInterval])
                  (called (updateStatus Disconnected (Some msg))
                     (called (log "debug" (Text msg)) (set_readyState i CLOSED w)))))) as E1.
  { unfold step. rewrite Hs.
    destruct r; try (now elim N);
      unfold run, onclose, bind, call, modify, gets, setTimeout; simpl;
      rewrite F; reflexivity. }
  rewrite E1. set (w1 := with_reconnectionTimeout _ _).
  assert (pending (next_handle w) w1 = true) as P.
  { unfold pending, w1. simpl. rewrite existsb_app. simpl.
    rewrite Nat.eqb_refl. now rewrite orb_true_r. }
  assert (readyState_of w1 i = Some CLOSED) as C.
  { unfold readyState_of, w1, set_readyState. simpl.
    rewrite nth_error_modify_nth, Nat.eqb_refl.
    unfold readyState_of in Hs. now destruct (nth_error (sockets w) i). }
  split; [exact P|]. split; [exact C|].
  rewrite (timer_fires_connects (next_handle w) i w1 P W C).
  set (w3 := without_timer (next_handle w) w1).
  assert (sockets w3 = modify_nth i (with_readyState CLOSED) (sockets w)) as S3
    by reflexivity.
  assert (List.length (sockets w3) = List.length (sockets w)) as Len
    by (rewrite S3; apply length_modify_nth).
  rewrite (connect_world w3 Hh Hp A). unfold connect_done, connect_attempted.
  change (ws w3) with (ws w). rewrite W.
  split.
  { simpl. rewrite length_app, !length_modify_nth. simpl. lia. }
  split; [exact (f_equal Some Len)|].
  split.
  { pose proof (nth_error_snoc (modify_nth i close_state (sockets w3))
                  (mkWebsocket (reconnect_address w) CONNECTING [])) as Nx.
    rewrite length_modify_nth, Len in Nx. exact Nx. }
  split; [|reflexivity].
  exact (pending_without (next_handle w) w1).
Qed.

(** X11.  The open event of a connecting socket: the socket is open, the
    timer whose handle is recorded is no longer pending, the status [Ok]
    and the log line are the two calls made, and the module variables are
    as before. *)
Theorem open_event_settles (i : nat) (w : World) :
  readyState_of w i = Some CONNECTING ->
  let w' := step (Socket_open i) w in
  readyState_of w' i = Some OPEN /\
  (forall h, reconnectionTimeout w = Some h -> pending h w' = false) /\
  calls (self w') =
    log "debug" (Text "Socket connected") :: updateStatus Ok None :: calls (self w) /\
  ws w' = ws w /\ shouldReconnect w' = shouldReconnect w /\
  reconnectionTimeout w' = reconnectionTimeout w.
Proof.
  intros C. cbv zeta. unfold step. rewrite C.
  assert (run onopen (set_readyState i OPEN w) =
          called (log "debug" (Text "Socket connected"))
            (called (updateStatus Ok None)
               (match reconnectionTimeout w with
                | Some h => without_timer h (set_readyState i OPEN w)
                | None => set_readyState i OPEN w
                end))) as ->.
  { unfold run, onopen, bind, gets, call, modify, clearTimeout, ret. simpl.
    destruct (reconnectionTimeout w); reflexivity. }
  split; [|split; [|destruct (reconnectionTimeout w) eqn:T; simpl; rewrite ?T;
                      repeat split; reflexivity]].
  - unfold readyState_of in *.
    assert (forall w0, sockets (called (log "debug" (Text "Socket connected"))
              (called (updateStatus Ok None) w0)) = sockets w0) as Eq by reflexivity.
    rewrite Eq.
    assert (sockets (match reconnectionTimeout w with
                     | Some h => without_timer h (set_readyState i OPEN w)
                     | None => set_readyState i OPEN w
                     end) = modify_nth i (with_readyState OPEN) (sockets w)) as ->
      by (destruct (reconnectionTimeout w); reflexivity).
    rewrite nth_error_modify_nth, Nat.eqb_refl.
    now destruct (nth_error (sockets w) i).
  - intros h ->. apply (pending_without h (set_readyState i OPEN w)).
Qed.

(** X13.  Whatever the frame, [ws.onmessage] completes and leaves the
    connection alone: the current socket, the sockets, the timers, the
    recorded handle, the flag and the configuration are as before. *)
Theorem onmessage_leaves_connection (event_data : string) (w : World) :
  fst (onmessage event_data w) = Normal tt /\
  connection (run (onmessage event_data) w) = connection w.
Proof.
  split.
  - unfold onmessage. now rewrite try_catch_swallow.
  - apply connection_onmessage.
Qed.

(** X15.  A frame of type ["ontime-refetch"]: the event directory is
    emptied, one request to the events address is in flight with the
    refetch continuation, the two log lines are the calls made, and the
    stored state is as before. *)
Theorem onmessage_refetch (event_data : string) (msg : jsval) (w : World) :
  JSON_parse event_data = Some msg ->
  message_type msg = JStr "ontime-refetch" ->
  let w' := run (onmessage event_data) w in
  events (self w') = JArr [] /\
  requests w' = (requests w ++ [mkRequest (events_address w) FromRefetch])%list /\
  calls (self w') =
    log "debug" (Text "fetching events from ontime") ::
    log "debug" (Text "refetching events") :: calls (self w) /\
  states (self w') = states (self w).
Proof.
  intros E T. cbv zeta. unfold run, onmessage. rewrite try_catch_swallow. simpl snd.
  unfold onmessage_try.
  erewrite bind_normal by (unfold lift; rewrite E; reflexivity). cbv beta.
  unfold message_type, field in T.
  destruct (Js.get_prop msg "type") as [t|e] eqn:G; [subst t | discriminate T].
  pose proof (get_prop_normal _ _ _ G) as N.
  erewrite bind_normal by reflexivity. cbv beta.
  erewrite bind_normal by (unfold lift; rewrite (get_prop_field _ _ N); reflexivity).
  cbv beta.
  change (Js.truthy (JStr "ontime-refetch")) with true.
  change (Js.strict_eq_str (JStr "ontime-refetch") "ontime") with false.
  change (Js.strict_eq_str (JStr "ontime-refetch") "ontime-refetch") with true.
  repeat split; reflexivity.
Qed.

Lemma initEvents_resume_completes r w : fst (initEvents_resume r w) = Normal tt.
Proof.
  unfold initEvents_resume, try_catch.
  match goal with |- fst (match ?m with _ => _ end) = _ => destruct m as [[[]|e] w'] end;
    reflexivity.
Qed.

(** X16.  [initEvents] never rejects, so of the two callbacks the
    refetch branch chains only the first can run: when the request of a
    refetch ends, fulfilled or rejected, [init_actions] is called after
    whatever [initEvents] logged. *)
Theorem refetch_always_reinitialises (r : Response) (w : World) :
  fst (initEvents_resume r w) = Normal tt /\
  fst (settle FromRefetch r w) = Normal tt /\
  calls (self (run (settle FromRefetch r) w)) =
    init_actions :: calls (self (run (initEvents_resume r) w)).
Proof.
  pose proof (initEvents_resume_completes r w) as C.
  split; [exact C|]. unfold run, settle.
  destruct (initEvents_resume r w) as [[[]|e] w']; [|discriminate C].
  split; reflexivity.
Qed.

(** X17.  The event directory after [initEvents]: the entries of the
    elements when the response is an array with no [null] in it, and in
    every other case (a rejection, a response that is not an array, an
    array with a [null] anywhere) the directory as it was, never a part
    of the result. *)
Theorem initEvents_all_or_nothing (r : Response) (w : World) :
  events (self (run (initEvents_resume r) w)) =
    match r with
    | Fulfilled (JArr l) =>
        if all_present l then JArr (map directory_entry l) else events (self w)
    | _ => events (self w)
    end.
Proof.
  destruct r as [data|e]; [|reflexivity].
  destruct data; try reflexivity.
  unfold run, initEvents_resume, try_catch.
  do 3 (erewrite bind_normal by reflexivity; cbv beta).
  destruct (all_present elems) eqn:A.
  - erewrite bind_normal
      by (unfold lift, Array_map; rewrite (map_throwing_all _ A); reflexivity).
    reflexivity.
  - destruct (map_throwing_some_null _ A) as [e E].
    erewrite bind_throw by (unfold lift, Array_map; rewrite E; reflexivity).
    reflexivity.
Qed.




(** X19.  What [host.replace(pattern, '')] computes: when the pattern
    matches, the host is [http://] or [https://] followed by the result;
    when it does not, the result is the host. *)
Theorem pattern_replace_strips (h : string) :
  (pattern_test h = true ->
   h = "http://" ++ pattern_replace h \/ h = "https://" ++ pattern_replace h) /\
  (pattern_test h = false -> pattern_replace h = h).
Proof.
  unfold pattern_test, pattern_replace.
  destruct (String.prefix "http://" h) eqn:P1.
  - split; [|discriminate]. intros _. left. exact (prefix_split _ _ P1).
  - destruct (String.prefix "https://" h) eqn:P2.
    + split; [|discriminate]. intros _. right. exact (prefix_split _ _ P2).
    + split; [discriminate | reflexivity].
Qed.

Lemma step_keeps {A} (f : World -> A) (e : Event) (w : World) :
  (forall w x, f (with_sockets x w) = f w) ->
  (forall w x, f (with_timers x w) = f w) ->
  (forall w x, f (with_requests x w) = f w) ->
  keeps f connect -> keeps f disconnectSocket ->
  (forall m, keeps f (socketSend m)) ->
  (forall a, keeps f (initEvents_start a)) ->
  keeps f onopen -> (forall c, keeps f (onclose c)) -> (forall d, keeps f (onerror d)) ->
  keeps f reconnect_check ->
  (forall i d, e = Socket_message i d -> keeps f (onmessage d)) ->
  (forall k r a, e = Request_ends k r -> keeps f (settle a r)) ->
  f (step e w) = f w.
Proof.
  intros Fs Ft Fr Kc Kd Ks Ki Ko Kcl Ke Kr Km Kq.
  destruct e; unfold step, run.
  - apply Kc.
  - apply Kd.
  - apply Ks.
  - apply Ks.
  - apply Ki.
  - destruct (readyState_of w i) as [[]|]; try reflexivity.
    rewrite Ko. apply Fs.
  - destruct (readyState_of w i) as [[]|]; try reflexivity; rewrite Kcl; apply Fs.
  - destruct (readyState_of w i) as [[]|]; try reflexivity; apply Ke.
  - destruct (readyState_of w i) as [[]|]; try reflexivity; now apply (Km i).
  - destruct (pending h w); [|reflexivity]. rewrite Kr. apply Ft.
  - destruct (nth_error (requests w) k); [|reflexivity].
    rewrite (Kq k r) by reflexivity. apply Fr.
Qed.

(** X18.  Who writes the host instance: no turn of the loop changes the
    configuration; only a message event changes the stored state; only a
    message event or the end of a request changes the event directory. *)
Theorem state_writers (e : Event) (w : World) :
  config (self (step e w)) = config (self w) /\
  ((forall i d, e <> Socket_message i d) ->
   states (self (step e w)) = states (self w)) /\
  ((forall i d, e <> Socket_message i d) -> (forall k r, e <> Request_ends k r) ->
   events (self (step e w)) = events (self w)).
Proof.
  split; [|split].
  - apply (step_keeps (fun w => config (self w))); try reflexivity; intros; try solve [untouched].
    apply keeps_settle; [untouched | untouched | intros; untouched].
  - intros M.
    apply (step_keeps (fun w => states (self w))); try reflexivity; intros; try solve [untouched].
    + now elim (M i d).
    + apply keeps_settle; [untouched | untouched | intros; untouched].
  - intros M Q.
    apply (step_keeps (fun w => events (self w))); try reflexivity; intros; try solve [untouched].
    + now elim (M i d).
    + now elim (Q k r).
Qed.

(** X7.  [connect] with host and port configured to an address the
    constructor takes: it returns; exactly one socket is created,
    connecting to the configured address, and it becomes the current one;
    the socket that was current has had [close()] called on it; the other
    sockets are as before; the one call into the host is the status
    [Connecting]; pending timers, the recorded handle and the flag are as
    before. *)
Theorem connect_replaces (w : World) :
  host_truthy (host (config (self w))) = true ->
  Js.truthy (port (config (self w))) = true ->
  address_accepted (reconnect_address w) = true ->
  let w' := run connect w in
  let n := List.length (sockets w) in
  fst (connect w) = Normal tt /\
  List.length (sockets w') = S n /\
  ws w' = Some n /\
  nth_error (sockets w') n = Some (mkWebsocket (reconnect_address w) CONNECTING []) /\
  (forall i s, ws w = Some i -> nth_error (sockets w) i = Some s ->
               nth_error (sockets w') i = Some (close_state s)) /\
  (forall j, ws w <> Some j -> (j < n)%nat ->
             nth_error (sockets w') j = nth_error (sockets w) j) /\
  calls (self w') = updateStatus Connecting None :: calls (self w) /\
  timers w' = timers w /\
  reconnectionTimeout w' = reconnectionTimeout w /\
  shouldReconnect w' = shouldReconnect w /\
  states (self w') = states (self w) /\
  events (self w') = events (self w) /\
  requests w' = requests w.
Proof.
  intros Hh Hp A. cbv zeta.
  split; [now rewrite (connect_eq w Hh Hp), A|].
  rewrite (connect_world w Hh Hp A). unfold connect_done, connect_attempted. simpl.
  assert (List.length (match ws w with
                       | Some i => modify_nth i close_state (sockets w)
                       | None => sockets w
                       end) = List.length (sockets w)) as Len
    by (destruct (ws w); rewrite ?length_modify_nth; reflexivity).
  split; [rewrite length_app, Len; simpl; lia|].
  split; [reflexivity|]. split; [|split; [|split; [|repeat split; reflexivity]]].
  - rewrite <- Len at 1. apply nth_error_snoc.
  - intros i s W N. rewrite W.
    assert (i < List.length (sockets w))%nat as Lt
      by (apply nth_error_Some; congruence).
    rewrite nth_error_app1 by (rewrite length_modify_nth; exact Lt).
    now rewrite nth_error_modify_nth, Nat.eqb_refl, N.
  - intros j W Lt. rewrite nth_error_app1 by (rewrite Len; exact Lt).
    destruct (ws w) as [i|]; [|reflexivity].
    rewrite nth_error_modify_nth. destruct (Nat.eqb i j) eqn:E; [|reflexivity].
    apply Nat.eqb_eq in E. congruence.
Qed.

(** X21.  [connect] with host and port configured to an address the
    constructor does not take: the constructor's [SyntaxError] is thrown
    out of [connect]; by then the status [Connecting] has been signalled
    and [close()] called on the current socket; no socket is created,
    [ws] still names the old socket, and timers, the recorded handle, the
    flag and the host instance's state are as before. *)
Theorem connect_rejected (w : World) :
  host_truthy (host (config (self w))) = true ->
  Js.truthy (port (config (self w))) = true ->
  address_accepted (reconnect_address w) = false ->
  let w' := run connect w in
  fst (connect w) = Throw SyntaxError /\
  List.length (sockets w') = List.length (sockets w) /\
  ws w' = ws w /\
  (forall i s, ws w = Some i -> nth_error (sockets w) i = Some s ->
               nth_error (sockets w') i = Some (close_state s)) /\
  (forall j, ws w <> Some j -> nth_error (sockets w') j = nth_error (sockets w) j) /\
  calls (self w') = updateStatus Connecting None :: calls (self w) /\
  timers w' = timers w /\
  reconnectionTimeout w' = reconnectionTimeout w /\
  shouldReconnect w' = shouldReconnect w /\
  states (self w') = states (self w) /\
  events (self w') = events (self w) /\
  requests w' = requests w.
Proof.
  intros Hh Hp A. cbv zeta.
  split; [now rewrite (connect_eq w Hh Hp), A|].
  rewrite (connect_rejected_world w Hh Hp A). unfold connect_attempted. simpl.
  split; [destruct (ws w); rewrite ?length_modify_nth; reflexivity|].
  split; [reflexivity|]. split; [|split; [|repeat split; reflexivity]].
  - intros i s W N. rewrite W.
    now rewrite nth_error_modify_nth, Nat.eqb_refl, N.
  - intros j W. destruct (ws w) as [i|]; [|reflexivity].
    rewrite nth_error_modify_nth. destruct (Nat.eqb i j) eqn:E; [|reflexivity].
    apply Nat.eqb_eq in E. congruence.
Qed.

Lemma quiet_step e w :
  quiet w -> e <> Call_connect ->
  quiet (step e w) /\ List.length (sockets (step e w)) = List.length (sockets w).
Proof.
  intros [F T] N.
  assert (forall w', connection w' = connection w ->
            quiet w' /\ List.length (sockets w') = List.length (sockets w)) as Same.
  { unfold connection, quiet. intros w' [= _ _ -> -> -> _ _]. now repeat split. }
  destruct e; unfold step.
  - now elim N.
  - rewrite disconnectSocket_world. unfold quiet. simpl. rewrite T.
    repeat split.
    + now destruct (reconnectionTimeout w).
    + destruct (ws w); rewrite ?length_modify_nth; reflexivity.
  - unfold run, socketSend, bind, gets. simpl.
    destruct (ws w) as [i|]; [|now repeat split].
    destruct (readyState_of w i) as [[]|]; try (now repeat split).
    unfold quiet. simpl. now rewrite length_modify_nth.
  - unfold run, socketSendJson, socketSend, bind, gets. simpl.
    destruct (ws w) as [i|]; [|now repeat split].
    destruct (readyState_of w i) as [[]|]; try (now repeat split).
    unfold quiet. simpl. now rewrite length_modify_nth.
  - apply Same, connection_initEvents_start.
  - destruct (readyState_of w i) as [[]|]; try (now repeat split).
    unfold run, onopen, bind, gets, call, modify, clearTimeout, ret, quiet. simpl.
    destruct (reconnectionTimeout w); simpl; rewrite T, length_modify_nth; now repeat split.
  - destruct (readyState_of w i) as [[]|]; try (now repeat split);
      unfold run, onclose, bind, gets, call, modify, quiet; simpl; rewrite F; simpl;
      rewrite length_modify_nth; now repeat split.
  - destruct (readyState_of w i) as [[]|]; now repeat split.
  - destruct (readyState_of w i) as [[]|]; try (now repeat split);
      apply Same, connection_onmessage.
  - unfold pending. rewrite T. simpl. now repeat split.
  - destruct (nth_error (requests w) k); [|now repeat split].
    unfold run.
    pose proof (connection_settle (awaiter r0) r
                  (with_requests (remove_nth k (requests w)) w)) as C.
    apply Same. exact C.
Qed.

(** X20.  Once reconnection is disabled and no timer is pending, nothing
    but a call of [connect] by the host creates a socket: over any
    sequence of other events the sockets stay as many, the flag stays
    [false] and no timer is set. *)
Theorem quiet_stays_quiet (es : list Event) (w : World) :
  shouldReconnect w = false -> timers w = [] ->
  Forall (fun e => e <> Call_connect) es ->
  let w' := steps es w in
  List.length (sockets w') = List.length (sockets w) /\
  shouldReconnect w' = false /\ timers w' = [].
Proof.
  intros F T A. cbv zeta.
  assert (quiet w) as Q by now split. clear F T.
  revert w Q. induction A as [|e es N _ IH]; intros w Q; [now destruct Q|].
  destruct (quiet_step e w Q N) as [Q' Len].
  destruct (IH _ Q') as (L & F & T). simpl. repeat split; congruence.
Qed.

Lemma Forall_modify_nth {A} (P : A -> Prop) (f : A -> A) (l : list A) i :
  (forall x, P x -> P (f x)) -> Forall P l -> Forall P (modify_nth i f l).
Proof.
  intros F H. revert i. induction H as [|x l Px Pl IH]; intros [|i]; simpl;
    constructor; auto.
Qed.

Lemma dead_not_live w i :
  Forall (fun s => is_live s = false) (sockets w) ->
  readyState_of w i <> Some OPEN /\ readyState_of w i <> Some CONNECTING.
Proof.
  intros D. unfold readyState_of.
  destruct (nth_error (sockets w) i) as [s|] eqn:N; [|split; discriminate].
  apply nth_error_In in N. rewrite Forall_forall in D. specialize (D s N).
  unfold is_live in D. simpl. destruct (readyState s); split; congruence.
Qed.

Lemma disconnect_kills w :
  live_is_current w ->
  Forall (fun s => is_live s = false) (sockets (run disconnectSocket w)).
Proof.
  intros L. rewrite disconnectSocket_world. simpl.
  apply Forall_forall. intros s I. apply In_nth_error in I as [j N].
  destruct (is_live s) eqn:Lv; [|reflexivity]. exfalso.
  destruct (ws w) as [i|] eqn:W.
  - rewrite nth_error_modify_nth in N. destruct (Nat.eqb i j) eqn:E.
    + destruct (nth_error (sockets w) j); [|discriminate N].
      injection N as <-. now rewrite is_live_close_state in Lv.
    + specialize (L j s N Lv). rewrite W in L. injection L as ->.
      now rewrite Nat.eqb_refl in E.
  - specialize (L j s N Lv). rewrite W in L. discriminate L.
Qed.

(** With reconnection disabled and no timer pending, an event other than a
    call of [connect] brings no socket back to life. *)
Lemma dead_step e w :
  quiet w -> Forall (fun s => is_live s = false) (sockets w) -> e <> Call_connect ->
  Forall (fun s => is_live s = false) (sockets (step e w)).
Proof.
  intros [F T] D N.
  assert (forall w', connection w' = connection w ->
            Forall (fun s => is_live s = false) (sockets w')) as Same.
  { unfold connection. intros w' [= _ _ _ -> _ _ _]. exact D. }
  assert (forall m, run (socketSend m) w = w) as Send.
  { intros m. unfold run. rewrite socketSend_not_open; [reflexivity|].
    intros i _. apply (dead_not_live w i D). }
  destruct e; unfold step.
  - now elim N.
  - rewrite disconnectSocket_world. simpl.
    destruct (ws w); [|exact D].
    apply Forall_modify_nth; [|exact D]. intros s _. apply is_live_close_state.
  - now rewrite Send.
  - unfold socketSendJson. now rewrite Send.
  - apply Same, connection_initEvents_start.
  - destruct (dead_not_live w i D) as [_ C].
    destruct (readyState_of w i) as [[]|]; try exact D. now elim C.
  - assert (Forall (fun s => is_live s = false) (sockets (set_readyState i CLOSED w)))
      as D'.
    { unfold set_readyState. simpl. apply Forall_modify_nth; [|exact D].
      now intros [a r o] _. }
    assert (forall w0, sockets (run (onclose code) w0) = sockets w0) as K
      by (intros w0; exact (f_equal snd (current_onclose code w0))).
    destruct (readyState_of w i) as [[]|]; try exact D; now rewrite K.
  - assert (forall w0, sockets (run (onerror data) w0) = sockets w0) as K
      by (intros w0; exact (f_equal snd (current_onerror data w0))).
    destruct (readyState_of w i) as [[]|]; try exact D; now rewrite K.
  - destruct (readyState_of w i) as [[]|]; try exact D;
      apply Same, connection_onmessage.
  - unfold pending. rewrite T. exact D.
  - destruct (nth_error (requests w) k); [|exact D].
    pose proof (connection_settle (awaiter r0) r
                  (with_requests (remove_nth k (requests w)) w)) as C.
    apply Same. exact C.
Qed.

(** X4.  Right after [disconnectSocket] a [socketSend] is dropped.  And in
    a world the loop can reach, when [disconnectSocket] leaves no timer
    pending, a [socketSend] is dropped after any sequence of events in
    which the host does not call [connect]: no socket comes back to
    life. *)
Theorem socketSend_after_disconnect (message : string) (cfg : Config)
    (before es : list Event) :
  (forall w,
     socketSend message (run disconnectSocket w) = (Normal tt, run disconnectSocket w)) /\
  let w := steps (before ++ [Call_disconnectSocket]) (initial cfg) in
  (timers w = [] -> Forall (fun e => e <> Call_connect) es ->
   Forall (fun s => is_live s = false) (sockets (steps es w)) /\
   socketSend message (steps es w) = (Normal tt, steps es w)).
Proof.
  split; [intros w; apply socketSend_right_after_disconnect|].
  cbv zeta. rewrite steps_app. simpl. set (w0 := steps before (initial cfg)).
  intros T A.
  assert (quiet (run disconnectSocket w0)) as Q
    by (split; [apply disconnectSocket_disables | exact T]).
  pose proof (disconnect_kills w0 (reachable_live cfg before)) as D.
  clear T. revert Q D. generalize (run disconnectSocket w0) as w.
  induction A as [|e es N _ IH]; intros w Q D.
  - split; [exact D|]. apply socketSend_not_open. intros i _.
    apply (dead_not_live w i D).
  - simpl. apply IH; [apply (quiet_step e w Q N) | now apply dead_step].
Qed.

End Behaviour.

(** ** The handlers on actual frames *)




Definition running_state (playback : jsval) : jsval :=
  JObj [ ("timer", JObj [ ("current", JNum 0); ("clock", JNum 3723000);
                          ("startedAt", JNum 3600000);
                          ("expectedFinish", JNum 7200000); ("addedTime", JNum 0) ]);
         ("playback", playback);
         ("onAir", JBool false);
         ("titles", JObj [ ("titleNow", JStr "Opening"); ("subtitleNow", JStr "");
                           ("presenterNow", JStr ""); ("noteNow", JStr "");
                           ("titleNext", JStr "Keynote"); ("subtitleNext", JStr "");
                           ("presenterNext", JStr ""); ("noteNext", JStr "") ]);
         ("timerMessage", JObj [("text", JStr "")]);
         ("publicMessage", JObj [("text", JStr "hi")]);
         ("lowerMessage", JObj [("text", JStr "")]) ].

Definition running_frame : string :=
  Reference.stringify
    (JObj [("type", JStr "ontime"); ("payload", running_state (JStr "play"))]).




Definition other_message : jsval :=
  JObj [("type", JStr "pong"); ("payload", JNum 1)].

Definition other_frame : string := Reference.stringify other_message.

Definition refetch_frame : string :=
  Reference.stringify (JObj [("type", JStr "ontime-refetch")]).

Definition open_event : jsval := JObj [("id", JStr "1"); ("title", JStr "Open")].

Definition unconfigured : Config := mkConfig None (JNum 4001).

(** A port beyond 65535: the address is not a URL. *)
Definition out_of_range : Config := mkConfig (Some "localhost") (JNum 65536).

Definition fetch_then_fail : list Event :=
  [ Call_initEvents; Request_ends 0 (Fulfilled (JArr [open_event]));
    Call_initEvents; Request_ends 0 (Rejected (RequestFailed "ECONNREFUSED")) ].


Definition refetch_message : jsval := JObj [("type", JStr "ontime-refetch")].

(** The world after the first [connect], and once its socket is open. *)
Definition connecting_world : World :=
  run (connect (H:=Reference.runtime)) (initial example_config).

Definition connected_world : World :=
  steps (H:=Reference.runtime) [Call_connect; Socket_open 0] (initial example_config).

(** A second [connect] while the timer of the first close is pending. *)
Definition reconnected_world : World :=
  steps (H:=Reference.runtime)
    [Call_connect; Socket_close 0 (JNum 1006); Call_connect] (initial example_config).

Definition disconnected_world : World :=
  steps (H:=Reference.runtime)
    [Call_connect; Socket_open 0; Call_disconnectSocket] (initial example_config).

Example current_zero_is_not_negative :
  field (states (self (run (onmessage (H:=Reference.runtime) running_frame)
                         (initial example_config)))) "isNegative" = JBool false.
Proof. reflexivity. Qed.

Example fractional_current_is_flagged :
  field (states (self (run (ontime_branch (H:=Reference.runtime)
                              (JObj [("timer", JObj [("current", JFraction true "-0.5")])]))
                         (initial example_config)))) "isNegative" = JBool true.
Proof. reflexivity. Qed.

Example string_current_is_flagged :
  field (states (self (run (ontime_branch (H:=Reference.runtime)
                              (JObj [("timer", JObj [("current", JStr "-5")])]))
                         (initial example_config)))) "isNegative" = JBool true.
Proof. reflexivity. Qed.

Example absent_current_is_not_negative :
  field (states (self (run (ontime_branch (H:=Reference.runtime)
                              (JObj [("timer", JObj [])]))
                         (initial example_config)))) "isNegative" = JBool false.
Proof. reflexivity. Qed.

Example clock_is_published :
  exists values,
    nth_error (calls (self (run (onmessage (H:=Reference.runtime) running_frame)
                              (initial example_config)))) 1
      = Some (setVariableValues values) /\
    In (variableId.Clock, JStr "01:02:03") values.
Proof. eexists. split; [reflexivity|]. simpl. tauto. Qed.

Example refetch_clears_and_requests :
  let w := run (onmessage (H:=Reference.runtime) refetch_frame)
             (with_self (with_events old_directory (self (initial example_config)))
                (initial example_config)) in
  events (self w) = JArr [] /\
  requests w = [mkRequest "http://localhost:4001/events" FromRefetch].
Proof. split; reflexivity. Qed.


Lemma onmessage_invalid_json_witness :
  JSON_parse (Runtime:=Reference.runtime) "{type: ontime" = None /\
  onmessage (H:=Reference.runtime) "{type: ontime" (initial example_config)
    = (Normal tt, initial example_config).
Proof.
  split; [reflexivity|].
  apply (@onmessage_invalid_json Reference.runtime). reflexivity.
Defined.

Lemma onmessage_other_type_witness :
  onmessage (H:=Reference.runtime) other_frame (initial example_config)
    = (Normal tt, initial example_config).
Proof.
  apply (@onmessage_other_type Reference.runtime other_frame other_message);
    [reflexivity | discriminate | discriminate].
Defined.

Lemma connect_bad_config_witness :
  connect (H:=Reference.runtime) (initial unconfigured) =
    (Normal tt,
     called (updateStatus BadConfig (Some "no host and/or port defined"))
       (initial unconfigured)).
Proof. apply (@connect_bad_config Reference.runtime). left. reflexivity. Defined.

Lemma initEvents_success_witness :
  events (self (run (initEvents_resume (Fulfilled (JArr [open_event])))
                  (with_self (with_events old_directory (self (initial example_config)))
                     (initial example_config))))
    = JArr [JObj [("id", JStr "1"); ("label", JStr "Open")]].
Proof.
  refine (proj1 (proj2 (initEvents_success [open_event] _ _))).
  constructor; [reflexivity | constructor].
Defined.


(** C5, as stated, fails: a fetch that fails after one that succeeded
    leaves the directory of the first, which is not empty. *)
Lemma failed_fetch_keeps_directory :
  events (self (steps (H:=Reference.runtime) fetch_then_fail (initial example_config)))
    = JArr [JObj [("id", JStr "1"); ("label", JStr "Open")]] /\
  events (self (steps (H:=Reference.runtime) fetch_then_fail (initial example_config)))
    <> JArr [].
Proof. split; [reflexivity | discriminate]. Qed.

(** C8, as stated, fails: on the array [[null]] the callback throws at
    [evt.id], the [catch] logs, and the directory is the old one, with two
    entries, not an array of one entry. *)
Lemma null_element_keeps_directory :
  let w := with_self (with_events old_directory (self (initial example_config)))
             (initial example_config) in
  let w' := run (initEvents_resume (Fulfilled (JArr [JNull]))) w in
  events (self w') = old_directory /\
  (forall entry, events (self w') <> JArr [entry]) /\
  hd_error (calls (self w')) = Some (log "error" (Caught (Js.read_error JNull))).
Proof. cbv zeta. repeat split; try reflexivity. intros entry. discriminate. Qed.


Lemma socketSend_dropped_witness :
  socketSend "ping" (initial example_config) = (Normal tt, initial example_config).
Proof.
  refine (proj1 (@socketSend_dropped Reference.runtime "ping" "ping" JUndefined
                   (initial example_config) _)).
  intros i W. discriminate W.
Defined.

Lemma socketSend_delivered_witness :
  nth_error (sockets (run (socketSend "ping") connected_world)) 0
    = Some (mkWebsocket "ws://localhost:4001/ws" OPEN ["ping"]).
Proof.
  refine (proj1 (socketSend_delivered "ping" 0
                   (mkWebsocket "ws://localhost:4001/ws" OPEN []) connected_world _ _ _));
    reflexivity.
Defined.

Lemma connect_replaces_witness :
  ws connecting_world = Some 0%nat /\
  nth_error (sockets connecting_world) 0
    = Some (mkWebsocket "ws://localhost:4001/ws" CONNECTING []).
Proof.
  pose proof (@connect_replaces Reference.runtime (initial example_config)
                eq_refl eq_refl eq_refl) as P.
  cbv zeta in P. destruct P as (_ & _ & P1 & P2 & _). split; [exact P1 | exact P2].
Defined.

Lemma connect_rejected_witness :
  fst (connect (H:=Reference.runtime) (initial out_of_range)) = Throw SyntaxError /\
  sockets (run (connect (H:=Reference.runtime)) (initial out_of_range)) = [].
Proof.
  pose proof (@connect_rejected Reference.runtime (initial out_of_range)
                eq_refl eq_refl eq_refl) as P.
  cbv zeta in P. split; [exact (proj1 P) | reflexivity].
Defined.

Lemma connect_keeps_scheme_witness :
  address_accepted (Runtime:=Reference.runtime) "ws://http://localhost:4001/ws" = true /\
  map address (sockets (run (connect (H:=Reference.runtime)) (initial schemed_config)))
    = ["ws://http://localhost:4001/ws"].
Proof.
  split; [reflexivity|].
  pose proof (@connect_keeps_scheme Reference.runtime) as P.
  cbv zeta in P. exact (proj2 (proj1 (proj2 (proj2 (proj2 P))) eq_refl)).
Defined.

Lemma stale_timer_reconnects_witness :
  address_accepted (Runtime:=Reference.runtime) "ws://localhost:4001/ws" = true /\
  ws (step (H:=Reference.runtime) (Timer_fires 0)
        (steps (H:=Reference.runtime) overlapping_closes (initial example_config)))
    = Some 2%nat.
Proof.
  split; [reflexivity|].
  pose proof (@stale_timer_reconnects Reference.runtime eq_refl) as P.
  cbv zeta in P. exact (proj1 (proj2 (proj2 (proj2 (proj2 P))))).
Defined.

Lemma initEvents_failure_witness :
  let w := with_self (with_events old_directory (self (initial example_config)))
             (initial example_config) in
  fst (initEvents_resume (Rejected (RequestFailed "ECONNREFUSED")) w) = Normal tt /\
  events (self (run (initEvents_resume (Rejected (RequestFailed "ECONNREFUSED"))) w))
    = old_directory.
Proof.
  cbv zeta.
  pose proof (initEvents_failure (Rejected (RequestFailed "ECONNREFUSED")) FromHost
                (with_self (with_events old_directory (self (initial example_config)))
                   (initial example_config))) as P.
  cbv zeta in P.
  assert (forall l, Rejected (RequestFailed "ECONNREFUSED") = Fulfilled (JArr l) ->
                    all_present l = false) as N by (intros l E; discriminate E).
  split; [exact (proj1 (P N)) | exact (proj1 (proj2 (P N)))].
Defined.

Lemma socketSend_after_disconnect_witness :
  socketSend "ping"
    (steps (H:=Reference.runtime)
       [Socket_close 0 (JNum 1000); Timer_fires 0; Socket_error 0 JNull]
       (steps (H:=Reference.runtime)
          ([Call_connect; Socket_open 0] ++ [Call_disconnectSocket])
          (initial example_config)))
  = (Normal tt,
     steps (H:=Reference.runtime)
       [Socket_close 0 (JNum 1000); Timer_fires 0; Socket_error 0 JNull]
       (steps (H:=Reference.runtime)
          ([Call_connect; Socket_open 0] ++ [Call_disconnectSocket])
          (initial example_config))).
Proof.
  pose proof (proj2 (@socketSend_after_disconnect Reference.runtime "ping" example_config
                       [Call_connect; Socket_open 0]
                       [Socket_close 0 (JNum 1000); Timer_fires 0; Socket_error 0 JNull]))
    as P.
  cbv zeta in P. refine (proj2 (P _ _)); [reflexivity|].
  repeat constructor; discriminate.
Defined.

Lemma close_event_enabled_witness :
  timers (step (H:=Reference.runtime) (Socket_close 0 (JNum 1006)) connecting_world)
    = [mkTimeout 0 reconnectInterval] /\
  reconnectionTimeout
    (step (H:=Reference.runtime) (Socket_close 0 (JNum 1006)) connecting_world)
    = Some 0%nat.
Proof.
  apply (@close_event_enabled Reference.runtime 0 (JNum 1006) connecting_world);
    [reflexivity|].
  exists CONNECTING. split; [reflexivity | discriminate].
Defined.

Lemma close_then_timer_reconnects_witness :
  ws (steps (H:=Reference.runtime) [Socket_close 0 (JNum 1006); Timer_fires 0]
        connecting_world) = Some 1%nat.
Proof.
  pose proof (@close_then_timer_reconnects Reference.runtime 0 CONNECTING (JNum 1006)
                connecting_world eq_refl eq_refl eq_refl) as P.
  cbv zeta in P.
  refine (proj1 (proj2 (proj2 (proj2 (P _ eq_refl eq_refl eq_refl))))). discriminate.
Defined.

Lemma timer_guard_witness :
  step (H:=Reference.runtime) (Timer_fires 0) reconnected_world
    = without_timer 0 reconnected_world.
Proof.
  apply (@timer_guard Reference.runtime 0 reconnected_world); [reflexivity|].
  intros i W. injection W as <-. discriminate.
Defined.

Lemma open_event_settles_witness :
  readyState_of (step (H:=Reference.runtime) (Socket_open 0) connecting_world) 0
    = Some OPEN.
Proof.
  refine (proj1 (@open_event_settles Reference.runtime 0 connecting_world _)).
  reflexivity.
Defined.

Lemma recorded_timer_never_fires_witness :
  pending 0
    (steps (H:=Reference.runtime)
       (Call_disconnectSocket :: [Timer_fires 0; Call_connect])
       (steps (H:=Reference.runtime) [Call_connect; Socket_close 0 (JNum 1006)]
          (initial example_config))) = false.
Proof.
  refine (proj1 (@recorded_timer_never_fires Reference.runtime example_config
                   [Call_connect; Socket_close 0 (JNum 1006)]
                   [Timer_fires 0; Call_connect] 0%nat _)).
  vm_compute. reflexivity.
Defined.


Lemma onmessage_refetch_witness :
  requests (run (onmessage (H:=Reference.runtime) refetch_frame) (initial example_config))
    = [mkRequest "http://localhost:4001/events" FromRefetch].
Proof.
  refine (proj1 (proj2 (@onmessage_refetch Reference.runtime refetch_frame refetch_message
                          (initial example_config) _ _)));
    reflexivity.
Defined.

Lemma quiet_stays_quiet_witness :
  List.length
    (sockets (steps (H:=Reference.runtime)
                [Socket_close 0 (JNum 1000); Timer_fires 0; Socket_error 0 JNull]
                disconnected_world)) = 1%nat.
Proof.
  refine (proj1 (@quiet_stays_quiet Reference.runtime
                   [Socket_close 0 (JNum 1000); Timer_fires 0; Socket_error 0 JNull]
                   disconnected_world _ _ _));
    try reflexivity.
  repeat constructor; discriminate.
Defined.
